(** * The task admin of django-tasks-scheduler

    A shallow embedding of [scheduler/admin/old_task_models.py]: the column and
    fieldset tables of [TaskAdmin], its permission check, the detail view with
    the execution history, the two delete hooks and the four bulk actions.

    The file is glue over an ORM, a message framework and a queue broker.  What
    it does is call them, in some order, with some arguments; that is what the
    model keeps: every call into a collaborator is appended to a trace, with
    the object as it is at the moment of the call, and the collaborator answers
    (returns, or raises) through an environment the theorems quantify over. *)

From stdpp Require Import base strings list gmap pretty.

Open Scope string_scope.
Open Scope list_scope.
Open Scope Z_scope.

(** ** Python values the file handles *)

(** An exception instance: the method resolution order of its class (the class
    first, then its bases) and what [str(e)] gives. *)
Record Exn := mkExn { exn_mro : list string; exn_str : string }.

(** [isinstance(e, classes)] for a tuple of classes. *)
Definition isinstance (e : Exn) (classes : list string) : bool :=
  existsb (fun c => existsb (String.eqb c) (exn_mro e)) classes.

Definition ValueError (msg : string) : Exn :=
  mkExn ["ValueError"; "Exception"; "BaseException"; "object"] msg.

Definition AttributeError (msg : string) : Exn :=
  mkExn ["AttributeError"; "Exception"; "BaseException"; "object"] msg.

Definition ZeroDivisionError (msg : string) : Exn :=
  mkExn ["ZeroDivisionError"; "ArithmeticError"; "Exception"; "BaseException"; "object"] msg.

Definition EmptyPage (msg : string) : Exn :=
  mkExn ["EmptyPage"; "InvalidPage"; "Exception"; "BaseException"; "object"] msg.

(** A model class, as far as the admin looks at it: [cls.__name__] and the
    module that qualifies it in [str(cls)]. *)
Record ModelClass := mkModel { __name__ : string; __module__ : string }.

Definition str_class (cls : ModelClass) : string :=
  "<class '" +:+ __module__ cls +:+ "." +:+ __name__ cls +:+ "'>".

(** The fields of a task row the admin reads or writes. *)
Record Task := mkTask {
  pk : Z;
  name : string;
  enabled : bool;
  queue : string
}.

Definition set_enabled (b : bool) (o : Task) : Task :=
  mkTask (pk o) (name o) b (queue o).

(** One past run of a task, as the broker reports it. *)
Record Execution := mkExecution { execution_id : string }.

Record HttpRequest := mkRequest { GET : gmap string string }.

(** ** Fieldsets *)

(** An entry of a ["fields"] tuple: a field name, or a tuple of names shown on
    one line. *)
Inductive FieldEntry :=
  | Field (f : string)
  | FieldRow (fs : list string).

(** [(title, {"fields": ...})]; the title is [None] or a translatable string. *)
Record Fieldset := mkFieldset { title : option string; fields : list FieldEntry }.

(** ** The per-variant tables *)

Definition _LIST_DISPLAY_EXTRA : gmap string (list string) :=
  <["CronTask" :=
      ["cron_string"; "next_run"; "successful_runs"; "last_successful_run";
       "failed_runs"; "last_failed_run"] ]>
  (<["ScheduledTask" := ["scheduled_time"] ]>
  (<["RepeatableTask" :=
      ["scheduled_time"; "interval_display"; "successful_runs";
       "last_successful_run"; "failed_runs"; "last_failed_run"] ]> ∅)).

Definition _FIELDSET_EXTRA : gmap string (list FieldEntry) :=
  <["CronTask" :=
      [Field "cron_string"; Field "timeout"; Field "result_ttl";
       FieldRow ["successful_runs"; "last_successful_run"];
       FieldRow ["failed_runs"; "last_failed_run"] ] ]>
  (<["ScheduledTask" :=
      [Field "scheduled_time"; Field "timeout"; Field "result_ttl"] ]>
  (<["RepeatableTask" :=
      [Field "scheduled_time"; FieldRow ["interval"; "interval_unit"];
       Field "repeat"; Field "timeout"; Field "result_ttl";
       FieldRow ["successful_runs"; "last_successful_run"];
       FieldRow ["failed_runs"; "last_failed_run"] ] ]> ∅)).

(** [def get_message_bit(rows_updated: int) -> str] *)
Definition get_message_bit (rows_updated : Z) : string :=
  if bool_decide (rows_updated = 1) then "1 task was"
  else pretty rows_updated +:+ " tasks were".

(** ** [class TaskAdmin]: the declarative part *)

Definition list_display : list string :=
  ["enabled"; "name"; "link_new_task"; "job_id"; "function_string";
   "is_scheduled"; "queue"].

Definition fieldsets : list Fieldset :=
  [mkFieldset None
     [Field "name"; Field "callable"; Field "enabled"; Field "at_front"];
   mkFieldset (Some "RQ Settings") [Field "queue"; Field "job_id"]].

Definition has_add_permission (request : HttpRequest) : bool := false.

(** [self.model] is the model class the admin instance was registered for. *)
Definition get_list_display (model : ModelClass) (request : HttpRequest)
  : Exn + list string :=
  match _LIST_DISPLAY_EXTRA !! __name__ model with
  | None => inl (ValueError ("Unrecognized model " +:+ str_class model))
  | Some extra => inr (list_display ++ extra)
  end.

Definition get_fieldsets (model : ModelClass) (request : HttpRequest)
  (obj : option Task) : Exn + list Fieldset :=
  match _FIELDSET_EXTRA !! __name__ model with
  | None => inl (ValueError ("Unrecognized model " +:+ str_class model))
  | Some extra => inr (fieldsets ++ [mkFieldset (Some "Scheduling") extra])
  end.

(** ** Calls into collaborators *)

(** [django.contrib.messages] levels. *)
Inductive Level := DEBUG | INFO | SUCCESS | WARNING | ERROR.

(** A page of the execution history and an item of the elided page range. *)
Record Page := mkPage { object_list : list Execution; number : Z }.

Inductive PageItem := PageNum (n : Z) | ELLIPSIS.

(** Values of the template context.  [get_elided_page_range] is a generator:
    the context holds what iterating it will give, error included. *)
Inductive CtxValue :=
  | VBool (b : bool)
  | VStr (s : string)
  | VPage (p : Page)
  | VGenerator (items : Exn + list PageItem)
  | VOther (repr : string).

(** Every operation the file invokes on code that is not its own: methods of
    the task models, [migrate_util.migrate], the broker query, the logger and
    the [ModelAdmin] methods it inherits.  A task argument is the Python object
    as it is when the call is made; the fields the admin reads afterwards
    ([name]) are taken to be left alone by the callee. *)
Inductive Call :=
  | Unschedule (o : Task)
  | Save (o : Task)
  | EnqueueToRun (o : Task)
  | Migrate (o : Task)
  | MessageUser (message : string) (level : Level)
  | SuperDeleteQueryset (queryset : list Task)
  | SuperDeleteModel (obj : Task)
  | GetObject (object_id : Z)
  | GetJobExecutionsForTask (queue_name : string) (o : Task)
  | LoggerWarn (msg : string)
  | SuperChangeView (object_id : Z) (form_url : string)
      (extra_context : gmap string CtxValue).

(** How the collaborators answer.  An answer may depend on everything called
    before it.  [raises] is [Some e] when the call ends in exception [e]; the
    two other fields are the values the two queries return when they return. *)
Record Env := mkEnv {
  raises : list Call → Call → option Exn;
  get_object_result : list Call → Z → option Task;
  job_executions : list Call → string → Task → list Execution
}.

(** ** The effect monad: a trace of calls, and exceptions *)

Definition M (A : Type) : Type := list Call → list Call * (Exn + A).

Global Instance M_ret : MRet M := λ A a tr, (tr, inr a).

Global Instance M_bind : MBind M := λ A B k m tr,
  match m tr with
  | (tr', inl e) => (tr', inl e)
  | (tr', inr a) => k a tr'
  end.

(** A pure computation that may have raised. *)
Definition lift {A} (r : Exn + A) : M A := λ tr, (tr, r).

(** [try: body / except classes as e: handler e] *)
Definition try_except {A} (body : M A) (classes : list string)
  (handler : Exn → M A) : M A := λ tr,
  match body tr with
  | (tr', inl e) => if isinstance e classes then handler e tr' else (tr', inl e)
  | (tr', inr a) => (tr', inr a)
  end.

(** [for x in l: body], with the variables the body assigns threaded as [s]. *)
Fixpoint for_ {A S} (l : list A) (body : S → A → M S) (s : S) : M S :=
  match l with
  | [] => mret s
  | x :: l' => s' ← body s x; for_ l' body s'
  end.

(** A queryset is modelled by the rows it yields when it is evaluated. *)
Abbreviation QuerySet := (list Task).

(** [queryset.filter(enabled=b)] *)
Definition filter_enabled (b : bool) (queryset : QuerySet) : QuerySet :=
  filter (λ o, enabled o = b) queryset.

(** [queryset.iterator()] *)
Definition iterator (queryset : QuerySet) : list Task := queryset.

(** ** The framework's paginator, as the detail view uses it

    [ModelAdmin.get_paginator] builds a [django.core.paginator.Paginator] with
    no orphans and an empty first page allowed. *)

Record Paginator := mkPaginator {
  paginator_object_list : list Execution;
  per_page : Z
}.

Definition PageNotAnInteger (msg : string) : Exn :=
  mkExn ["PageNotAnInteger"; "InvalidPage"; "Exception"; "BaseException"; "object"] msg.

(** What a page number arrives as: the default [1], or the text of [?p=]. *)
Inductive PageArg := ArgInt (n : Z) | ArgStr (s : string).

(** [range(a, b)] *)
Definition range (a b : Z) : list Z := seqZ a (b - a).

(** [l[start:stop]] with Python's treatment of negative and overlong indices. *)
Definition slice {A} (l : list A) (start stop : Z) : list A :=
  let len := Z.of_nat (length l) in
  let norm i := if bool_decide (i < 0) then Z.max (i + len) 0 else Z.min i len in
  take (Z.to_nat (norm stop - norm start)) (drop (Z.to_nat (norm start)) l).

Definition count (p : Paginator) : Z :=
  Z.of_nat (length (paginator_object_list p)).

(** [ceil(hits / per_page)], the quotient taken exactly. *)
Definition num_pages (p : Paginator) : Exn + Z :=
  let hits := Z.max 1 (count p - 0) in
  if bool_decide (per_page p = 0) then inl (ZeroDivisionError "division by zero")
  else inr (- ((- hits) `div` per_page p)).

Section Paginator.

(** The builtin [int] on a string: [None] where it raises [ValueError]. *)
Variable int : string → option Z.

Definition validate_number (p : Paginator) (number : PageArg) : Exn + Z :=
  match match number with ArgInt n => Some n | ArgStr s => int s end with
  | None => inl (PageNotAnInteger "That page number is not an integer")
  | Some n =>
      if bool_decide (n < 1) then inl (EmptyPage "That page number is less than 1")
      else match num_pages p with
           | inl e => inl e
           | inr np =>
               if bool_decide (n > np)
               then inl (EmptyPage "That page contains no results")
               else inr n
           end
  end.

Definition page (p : Paginator) (number : PageArg) : Exn + Page :=
  match validate_number p number with
  | inl e => inl e
  | inr n =>
      let bottom := (n - 1) * per_page p in
      let top := bottom + per_page p in
      let top := if bool_decide (top + 0 >= count p) then count p else top in
      inr (mkPage (slice (paginator_object_list p) bottom top) n)
  end.

Definition get_page (p : Paginator) (number : PageArg) : Exn + Page :=
  match validate_number p number with
  | inr n => page p (ArgInt n)
  | inl e =>
      if isinstance e ["PageNotAnInteger"] then page p (ArgInt 1)
      else if isinstance e ["EmptyPage"] then
        match num_pages p with
        | inl e' => inl e'
        | inr np => page p (ArgInt np)
        end
      else inl e
  end.

(** With the defaults [on_each_side=3] and [on_ends=2]. *)
Definition get_elided_page_range (p : Paginator) (number : Z)
  : Exn + list PageItem :=
  match validate_number p (ArgInt number) with
  | inl e => inl e
  | inr number =>
  match num_pages p with
  | inl e => inl e
  | inr np =>
      if bool_decide (np <= (3 + 2) * 2) then inr (PageNum <$> range 1 (np + 1))
      else
        let low :=
          if bool_decide (number > (1 + 3 + 2) + 1)
          then (PageNum <$> range 1 (2 + 1)) ++ [ELLIPSIS]
               ++ (PageNum <$> range (number - 3) (number + 1))
          else PageNum <$> range 1 (number + 1) in
        let high :=
          if bool_decide (number < (np - 3 - 2) - 1)
          then (PageNum <$> range (number + 1) (number + 3 + 1)) ++ [ELLIPSIS]
               ++ (PageNum <$> range (np - 2 + 1) (np + 1))
          else PageNum <$> range (number + 1) (np + 1) in
        inr (low ++ high)
  end
  end.

End Paginator.

Definition get_paginator (request : HttpRequest) (queryset : list Execution)
  (per_page : Z) : Paginator :=
  mkPaginator queryset per_page.

Section Collaborators.

(** [scheduler.broker_types.ConnectionErrorTypes]: a tuple of exception
    classes; [SCHEDULER_CONFIG.EXECUTIONS_IN_PAGE]; the builtin [int]. *)
Variable ConnectionErrorTypes : list string.
Variable EXECUTIONS_IN_PAGE : Z.
Variable int : string → option Z.
Variable env : Env.

(** Make call [c]: it is recorded, then it raises or returns its answer. *)
Definition ask {A} (c : Call) (answer : list Call → A) : M A := λ tr,
  (tr ++ [c],
   match raises env tr c with Some e => inl e | None => inr (answer tr) end).

Definition call (c : Call) : M unit := ask c (λ _, tt).

Definition unschedule (o : Task) : M unit := call (Unschedule o).
Definition save (o : Task) : M unit := call (Save o).
Definition enqueue_to_run (o : Task) : M unit := call (EnqueueToRun o).
Definition migrate (o : Task) : M unit := call (Migrate o).

(** [ModelAdmin.message_user(request, message, level=messages.INFO)] *)
Definition message_user (request : HttpRequest) (message : string)
  (level : option Level) : M unit :=
  call (MessageUser message (default INFO level)).

Definition get_object (request : HttpRequest) (object_id : Z) : M (option Task) :=
  ask (GetObject object_id) (λ tr, get_object_result env tr object_id).

Definition get_job_executions_for_task (queue_name : string) (o : Task)
  : M (list Execution) :=
  ask (GetJobExecutionsForTask queue_name o)
      (λ tr, job_executions env tr queue_name o).

(** ** The detail view *)

Definition change_view (request : HttpRequest) (object_id : Z) (form_url : string)
  (extra_context : option (gmap string CtxValue)) : M (gmap string CtxValue) :=
  let extra := default ∅ extra_context in
  obj ← get_object request object_id;
  execution_list ← try_except
    match obj with
    | Some o => get_job_executions_for_task (queue o) o
    | None => lift (inl (AttributeError "'NoneType' object has no attribute 'queue'"))
    end
    ConnectionErrorTypes
    (λ e,
      call (LoggerWarn ("Could not get job executions: " +:+ exn_str e));;
      mret []);
  let paginator := get_paginator request execution_list EXECUTIONS_IN_PAGE in
  let page_number := default (ArgInt 1) (ArgStr <$> GET request !! "p") in
  page_obj ← lift (get_page int paginator page_number);
  let page_range := get_elided_page_range int paginator (number page_obj) in
  let extra :=
    <["page_var" := VStr "p"]>
    (<["page_range" := VGenerator page_range]>
    (<["executions" := VPage page_obj]>
    (<["pagination_required" :=
         VBool (bool_decide (count paginator > EXECUTIONS_IN_PAGE))]> extra))) in
  call (SuperChangeView object_id form_url extra);;
  mret extra.

(** ** The delete hooks *)

Definition delete_queryset (request : HttpRequest) (queryset : QuerySet) : M unit :=
  for_ queryset (λ _ job, unschedule job) tt;;
  call (SuperDeleteQueryset queryset).

Definition delete_model (request : HttpRequest) (obj : Task) : M unit :=
  unschedule obj;;
  call (SuperDeleteModel obj).

(** ** The bulk actions *)

Definition migrate_selected (request : HttpRequest) (queryset : QuerySet) : M unit :=
  rows_updated ← for_ (iterator queryset) (λ rows_updated obj,
    migrate obj;;
    mret (rows_updated + 1)) 0;
  let level := if bool_decide (rows_updated = 0) then WARNING else INFO in
  message_user request
    (get_message_bit rows_updated +:+ " successfully migrated to new model.")
    (Some level).

Definition disable_selected (request : HttpRequest) (queryset : QuerySet) : M unit :=
  rows_updated ← for_ (iterator (filter_enabled true queryset)) (λ rows_updated obj,
    let obj := set_enabled false obj in
    unschedule obj;;
    mret (rows_updated + 1)) 0;
  let level := if bool_decide (rows_updated = 0) then WARNING else INFO in
  message_user request
    (get_message_bit rows_updated +:+ " successfully disabled and unscheduled.")
    (Some level).

Definition enable_selected (request : HttpRequest) (queryset : QuerySet) : M unit :=
  rows_updated ← for_ (iterator (filter_enabled false queryset)) (λ rows_updated obj,
    let obj := set_enabled true obj in
    save obj;;
    mret (rows_updated + 1)) 0;
  let level := if bool_decide (rows_updated = 0) then WARNING else INFO in
  message_user request
    (get_message_bit rows_updated +:+ " successfully enabled and scheduled.")
    (Some level).

Definition enqueue_job_now (request : HttpRequest) (queryset : QuerySet) : M unit :=
  task_names ← for_ queryset (λ task_names task,
    enqueue_to_run task;;
    mret (task_names ++ [name task])) [];
  message_user request
    ("The following jobs have been enqueued: " +:+ String.concat ", " task_names)
    None.

End Collaborators.

(** Collaborators that always return, with no stored task and no history. *)
Definition quiet : Env := mkEnv (λ _ _, None) (λ _ _, None) (λ _ _ _, []).

(** A call that returns whatever was called before it. *)
Definition returns (env : Env) (c : Call) : Prop :=
  ∀ tr, raises env tr c = None.

(** The rows a framework delete removes, by primary key: the superclass hooks
    run [queryset.delete()] and [obj.delete()], and the admin selects by key. *)
Definition removed_by (c : Call) : list Z :=
  match c with
  | SuperDeleteQueryset queryset => pk <$> queryset
  | SuperDeleteModel obj => [pk obj]
  | _ => []
  end.

(** In a sequence of calls, every removal of a row comes after an
    [unschedule] on the object of that row. *)
Definition unschedule_precedes_removal (calls : list Call) : Prop :=
  ∀ pre c post k,
    calls = pre ++ c :: post →
    k ∈ removed_by c →
    ∃ o, Unschedule o ∈ pre ∧ pk o = k.

(** Sample rows. *)
Definition nightly : Task := mkTask 1 "nightly" true "default".
Definition weekly : Task := mkTask 2 "weekly" false "default".
Definition hourly : Task := mkTask 3 "hourly" true "high".

(** The broker is unreachable: the task exists, and asking for its executions
    raises a connection error. *)
Definition broker_down : Env :=
  mkEnv (λ _ c, match c with
                | GetJobExecutionsForTask _ _ =>
                    Some (mkExn ["ConnectionError"; "RedisError"; "Exception";
                                 "BaseException"; "object"]
                                "Error 111 connecting to localhost:6379.")
                | _ => None
                end)
        (λ _ _, Some nightly) (λ _ _ _, []).

(** The task exists and has run three times. *)
Definition three_runs : Env :=
  mkEnv (λ _ _, None) (λ _ _, Some nightly)
        (λ _ _ _, [mkExecution "run-1"; mkExecution "run-2"; mkExecution "run-3"]).

(** ** More of [class TaskAdmin] *)

Definition list_display_links : list string := ["name"].

Definition readonly_fields : list string := ["job_id"].

(** The field names of a ["fields"] tuple, rows opened up, and those of a
    tuple of fieldsets, as the admin's [flatten_fieldsets] lists them. *)
Definition flatten (entries : list FieldEntry) : list string :=
  entries ≫= λ entry,
    match entry with
    | Field f => [f]
    | FieldRow fs => fs
    end.

Definition flatten_fieldsets (fieldsets : list Fieldset) : list string :=
  fieldsets ≫= λ fieldset, flatten (fields fieldset).

(** The broker refuses one task: unscheduling the row with key 3 raises. *)
Definition hourly_stuck : Env :=
  mkEnv (λ _ c, match c with
                | Unschedule o =>
                    if bool_decide (pk o = 3)
                    then Some (mkExn ["ConnectionError"; "RedisError"; "Exception";
                                      "BaseException"; "object"]
                                     "Connection reset by peer")
                    else None
                | _ => None
                end)
        (λ _ _, Some hourly) (λ _ _ _, []).

(** ** Producing records *)

(** Modelled from the spec: what [migrate_util.migrate], which is not in this
    file, does: "migrate(task) -> new_task, linking old to new", it "produces
    a successor record under a newer model".  Of the calls the file makes it
    is the one that brings a new task record into being; [save] is made here
    only on rows that came out of the queryset, and the two delete calls
    remove rows. *)
Definition produces_record (c : Call) : bool :=
  match c with
  | Migrate _ => true
  | _ => false
  end.

(** Whatever the collaborators answer, every call [m] adds satisfies [P]. *)
Definition only_calls {A} (P : Call → Prop) (m : M A) : Prop :=
  ∀ tr, ∃ calls, (m tr).1 = tr ++ calls ∧ ∀ c, c ∈ calls → P c.

(** * Properties *)

(** ** The monad *)

Section Runs.

Variable env : Env.

Lemma ask_returns {A} c (answer : list Call → A) tr :
  raises env tr c = None → ask env c answer tr = (tr ++ [c], inr (answer tr)).
Proof. intros H. unfold ask. by rewrite H. Qed.

Lemma ask_raises {A} c (answer : list Call → A) e tr :
  raises env tr c = Some e → ask env c answer tr = (tr ++ [c], inl e).
Proof. intros H. unfold ask. by rewrite H. Qed.

Lemma call_returns c tr :
  raises env tr c = None → call env c tr = (tr ++ [c], inr tt).
Proof. apply ask_returns. Qed.

Lemma call_raises c e tr :
  raises env tr c = Some e → call env c tr = (tr ++ [c], inl e).
Proof. apply ask_raises. Qed.

(** Loops whose body makes one call [f x] per element and updates the loop
    variables by [g]. *)
Section OneCallLoops.

Context {A S : Type} (body : S → A → M S) (f : A → Call) (g : S → A → S).

Hypothesis body_calls : ∀ s x tr,
  body s x tr = (tr ++ [f x],
                 match raises env tr (f x) with
                 | Some e => inl e
                 | None => inr (g s x)
                 end).

Lemma for_call_step x (l : list A) s tr :
  for_ (x :: l) body s tr
    = match raises env tr (f x) with
      | Some e => (tr ++ [f x], inl e)
      | None => for_ l body (g s x) (tr ++ [f x])
      end.
Proof.
  simpl. unfold mbind, M_bind. rewrite body_calls.
  by destruct (raises env tr (f x)).
Qed.

(** The loop either sees every call return, or stops at the first call that
    raises. *)
Lemma for_calls_cases (l : list A) s tr :
  for_ l body s tr = (tr ++ (f <$> l), inr (foldl g s l))
  ∨ ∃ l1 x l2 e,
      l = l1 ++ x :: l2 ∧
      for_ l body s tr = (tr ++ (f <$> l1) ++ [f x], inl e).
Proof.
  revert s tr. induction l as [|x l IH]; intros s tr.
  - left. simpl. unfold mret, M_ret. by rewrite app_nil_r.
  - rewrite for_call_step.
    destruct (raises env tr (f x)) as [e|] eqn:Hx.
    + right. by exists [], x, l, e.
    + destruct (IH (g s x) (tr ++ [f x])) as [Hall|(l1 & y & l2 & e & -> & Hstop)].
      * left. rewrite Hall. by rewrite <-app_assoc.
      * right. exists (x :: l1), y, l2, e. split; [done|].
        rewrite Hstop. simpl. by rewrite <-app_assoc.
Qed.

Lemma for_calls_return (l : list A) s tr :
  (∀ x, x ∈ l → returns env (f x)) →
  for_ l body s tr = (tr ++ (f <$> l), inr (foldl g s l)).
Proof.
  revert s tr. induction l as [|x l IH]; intros s tr Hret.
  - simpl. unfold mret, M_ret. by rewrite app_nil_r.
  - rewrite for_call_step, (Hret x) by left.
    rewrite IH by (intros y Hy; apply Hret; by right).
    by rewrite <-app_assoc.
Qed.

End OneCallLoops.

Lemma call_then_update {A S} (f : A → Call) (g : S → A → S) s x tr :
  (call env (f x);; mret (g s x)) tr
    = (tr ++ [f x],
       match raises env tr (f x) with Some e => inl e | None => inr (g s x) end).
Proof.
  unfold mbind, M_bind, call, ask, mret, M_ret.
  by destruct (raises env tr (f x)).
Qed.

Lemma call_only {A} (f : A → Call) (s : unit) x tr :
  call env (f x) tr
    = (tr ++ [f x],
       match raises env tr (f x) with Some e => inl e | None => inr tt end).
Proof. reflexivity. Qed.

Lemma foldl_count {A} (l : list A) (n : Z) :
  foldl (λ rows_updated _, rows_updated + 1) n l = n + Z.of_nat (length l).
Proof.
  revert n. induction l as [|x l IH]; intros n; simpl; [lia|]. rewrite IH. lia.
Qed.

Lemma foldl_append_names (l : list Task) (acc : list string) :
  foldl (λ task_names task, task_names ++ [name task]) acc l = acc ++ (name <$> l).
Proof.
  revert acc. induction l as [|x l IH]; intros acc; simpl.
  - by rewrite app_nil_r.
  - rewrite IH. by rewrite <-app_assoc.
Qed.

End Runs.

(** ** What each handler calls when its collaborators return *)

Section Handlers.

Variable env : Env.
Variable request : HttpRequest.

Lemma bind_run {A B} (m : M A) (k : A → M B) tr :
  (m ≫= k) tr = match m tr with
                | (tr', inl e) => (tr', inl e)
                | (tr', inr a) => k a tr'
                end.
Proof. reflexivity. Qed.

(** The closing steps shared by the handlers: the loop has run, the count or
    the names are in closed form, and the report call returns. *)
Ltac finish_report Hreport :=
  unfold message_user; simpl;
  rewrite ?foldl_count, ?foldl_append_names, ?length_fmap, ?Z.add_0_l; simpl;
  rewrite call_returns by apply Hreport;
  rewrite <-?list_fmap_compose, <-?app_assoc; reflexivity.

Lemma migrate_selected_run queryset tr :
  let k := Z.of_nat (length queryset) in
  let report :=
    MessageUser (get_message_bit k +:+ " successfully migrated to new model.")
                (if bool_decide (k = 0) then WARNING else INFO) in
  (∀ o, o ∈ queryset → returns env (Migrate o)) →
  returns env report →
  migrate_selected env request queryset tr
    = (tr ++ (Migrate <$> queryset) ++ [report], inr tt).
Proof.
  intros k report Hcalls Hreport.
  unfold migrate_selected, iterator, migrate. rewrite bind_run.
  rewrite (for_calls_return env _ Migrate (λ n _, n + 1) (call_then_update env _ _))
    by done.
  finish_report Hreport.
Qed.

Lemma disable_selected_run queryset tr :
  let changed := set_enabled false <$> filter_enabled true queryset in
  let k := Z.of_nat (length changed) in
  let report :=
    MessageUser (get_message_bit k +:+ " successfully disabled and unscheduled.")
                (if bool_decide (k = 0) then WARNING else INFO) in
  (∀ o, o ∈ changed → returns env (Unschedule o)) →
  returns env report →
  disable_selected env request queryset tr
    = (tr ++ (Unschedule <$> changed) ++ [report], inr tt).
Proof.
  intros changed k report Hcalls Hreport.
  unfold disable_selected, iterator, unschedule. rewrite bind_run.
  rewrite (for_calls_return env _ (λ o, Unschedule (set_enabled false o))
             (λ n _, n + 1) (call_then_update env _ _))
    by (intros o Ho; apply Hcalls, list_elem_of_fmap; eauto).
  subst report k changed. rewrite length_fmap in Hreport.
  finish_report Hreport.
Qed.

Lemma enable_selected_run queryset tr :
  let changed := set_enabled true <$> filter_enabled false queryset in
  let k := Z.of_nat (length changed) in
  let report :=
    MessageUser (get_message_bit k +:+ " successfully enabled and scheduled.")
                (if bool_decide (k = 0) then WARNING else INFO) in
  (∀ o, o ∈ changed → returns env (Save o)) →
  returns env report →
  enable_selected env request queryset tr
    = (tr ++ (Save <$> changed) ++ [report], inr tt).
Proof.
  intros changed k report Hcalls Hreport.
  unfold enable_selected, iterator, save. rewrite bind_run.
  rewrite (for_calls_return env _ (λ o, Save (set_enabled true o))
             (λ n _, n + 1) (call_then_update env _ _))
    by (intros o Ho; apply Hcalls, list_elem_of_fmap; eauto).
  subst report k changed. rewrite length_fmap in Hreport.
  finish_report Hreport.
Qed.

Lemma enqueue_job_now_run queryset tr :
  let report :=
    MessageUser ("The following jobs have been enqueued: "
                 +:+ String.concat ", " (name <$> queryset)) INFO in
  (∀ o, o ∈ queryset → returns env (EnqueueToRun o)) →
  returns env report →
  enqueue_job_now env request queryset tr
    = (tr ++ (EnqueueToRun <$> queryset) ++ [report], inr tt).
Proof.
  intros report Hcalls Hreport.
  unfold enqueue_job_now, enqueue_to_run. rewrite bind_run.
  rewrite (for_calls_return env _ EnqueueToRun
             (λ task_names task, task_names ++ [name task])
             (call_then_update env _ _)) by done.
  finish_report Hreport.
Qed.

End Handlers.

(** ** Lists of rows and of calls *)

Lemma filter_enabled_partition (queryset : QuerySet) :
  (length (filter_enabled true queryset)
   + length (filter_enabled false queryset) = length queryset)%nat.
Proof.
  unfold filter_enabled. induction queryset as [|o l IH]; [done|].
  rewrite !filter_cons. destruct (enabled o) eqn:Ho.
  - rewrite decide_True, decide_False by done. simpl. lia.
  - rewrite decide_False, decide_True by done. simpl. lia.
Qed.

Lemma elem_of_filter_enabled b o (queryset : QuerySet) :
  o ∈ filter_enabled b queryset ↔ enabled o = b ∧ o ∈ queryset.
Proof. unfold filter_enabled. by rewrite list_elem_of_filter. Qed.

(** Where a call sits in a sequence that ends with a call of another kind. *)
Lemma split_before_last (pre post xs : list Call) c d :
  pre ++ c :: post = xs ++ [d] → c ∈ xs ∨ (c = d ∧ pre = xs).
Proof.
  revert xs. induction pre as [|p pre IH]; intros [|x xs] Heq; simpl in Heq.
  - injection Heq as -> _. by right.
  - injection Heq as -> _. left. by left.
  - injection Heq as _ Heq. by destruct pre.
  - injection Heq as -> Heq. destruct (IH _ Heq) as [Hin|[-> ->]].
    + left. by right.
    + by right.
Qed.

(** ** The tables *)

(** C3: for CronTask, ScheduledTask and RepeatableTask the list columns are
    the seven base columns followed by the variant's extra columns, and the
    fieldsets are the two base fieldsets followed by one "Scheduling" fieldset
    holding the variant's extra fields, all in the order of the tables. *)
Theorem variant_columns_and_fieldsets (module : string) request obj :
  get_list_display (mkModel "CronTask" module) request
    = inr ["enabled"; "name"; "link_new_task"; "job_id"; "function_string";
           "is_scheduled"; "queue";
           "cron_string"; "next_run"; "successful_runs"; "last_successful_run";
           "failed_runs"; "last_failed_run"]
  ∧ get_list_display (mkModel "ScheduledTask" module) request
    = inr ["enabled"; "name"; "link_new_task"; "job_id"; "function_string";
           "is_scheduled"; "queue";
           "scheduled_time"]
  ∧ get_list_display (mkModel "RepeatableTask" module) request
    = inr ["enabled"; "name"; "link_new_task"; "job_id"; "function_string";
           "is_scheduled"; "queue";
           "scheduled_time"; "interval_display"; "successful_runs";
           "last_successful_run"; "failed_runs"; "last_failed_run"]
  ∧ get_fieldsets (mkModel "CronTask" module) request obj
    = inr [mkFieldset None
             [Field "name"; Field "callable"; Field "enabled"; Field "at_front"];
           mkFieldset (Some "RQ Settings") [Field "queue"; Field "job_id"];
           mkFieldset (Some "Scheduling")
             [Field "cron_string"; Field "timeout"; Field "result_ttl";
              FieldRow ["successful_runs"; "last_successful_run"];
              FieldRow ["failed_runs"; "last_failed_run"]]]
  ∧ get_fieldsets (mkModel "ScheduledTask" module) request obj
    = inr [mkFieldset None
             [Field "name"; Field "callable"; Field "enabled"; Field "at_front"];
           mkFieldset (Some "RQ Settings") [Field "queue"; Field "job_id"];
           mkFieldset (Some "Scheduling")
             [Field "scheduled_time"; Field "timeout"; Field "result_ttl"]]
  ∧ get_fieldsets (mkModel "RepeatableTask" module) request obj
    = inr [mkFieldset None
             [Field "name"; Field "callable"; Field "enabled"; Field "at_front"];
           mkFieldset (Some "RQ Settings") [Field "queue"; Field "job_id"];
           mkFieldset (Some "Scheduling")
             [Field "scheduled_time"; FieldRow ["interval"; "interval_unit"];
              Field "repeat"; Field "timeout"; Field "result_ttl";
              FieldRow ["successful_runs"; "last_successful_run"];
              FieldRow ["failed_runs"; "last_failed_run"]]].
Proof. repeat split; vm_compute; reflexivity. Qed.

(** C8: for a model whose name is none of CronTask, ScheduledTask and
    RepeatableTask, [get_list_display] and [get_fieldsets] both raise a
    [ValueError] naming the model. *)
Theorem unrecognized_model_raises (model : ModelClass) request obj :
  __name__ model ∉ ["CronTask"; "ScheduledTask"; "RepeatableTask"] →
  get_list_display model request
    = inl (ValueError ("Unrecognized model " +:+ str_class model))
  ∧ get_fieldsets model request obj
    = inl (ValueError ("Unrecognized model " +:+ str_class model)).
Proof.
  intros Hname.
  assert (__name__ model ≠ "CronTask" ∧ __name__ model ≠ "ScheduledTask"
          ∧ __name__ model ≠ "RepeatableTask") as (H1 & H2 & H3).
  { repeat split; intros Heq; apply Hname; rewrite Heq;
      repeat first [by left | right]. }
  unfold get_list_display, get_fieldsets, _LIST_DISPLAY_EXTRA, _FIELDSET_EXTRA.
  by rewrite !lookup_insert_ne, !lookup_empty.
Qed.

Lemma unrecognized_model_raises_witness :
  get_list_display (mkModel "Task" "scheduler.models.task") (mkRequest ∅)
    = inl (ValueError "Unrecognized model <class 'scheduler.models.task.Task'>")
  ∧ get_fieldsets (mkModel "Task" "scheduler.models.task") (mkRequest ∅) None
    = inl (ValueError "Unrecognized model <class 'scheduler.models.task.Task'>").
Proof.
  apply (unrecognized_model_raises (mkModel "Task" "scheduler.models.task")).
  simpl. intros H. repeat (apply elem_of_cons in H as [H|H]; [discriminate H|]).
  by apply elem_of_nil in H.
Defined.

(** ** The bulk actions *)

(** X14: on a selection with k enabled and m disabled rows, when the calls
    it makes return, [disable_selected] clears the flag on the objects of
    exactly the k enabled rows and calls [unschedule] on each of them, in
    selection order and with the flag already cleared, then reports k; the m
    disabled rows are in no call and not in the count, and no call is a
    [save]. *)
Theorem disable_selected_unschedules_enabled env request (queryset : QuerySet) tr :
  let enabled_rows := filter_enabled true queryset in
  let disabled_rows := filter_enabled false queryset in
  let changed := set_enabled false <$> enabled_rows in
  let k := Z.of_nat (length enabled_rows) in
  let report :=
    MessageUser (get_message_bit k +:+ " successfully disabled and unscheduled.")
                (if bool_decide (k = 0) then WARNING else INFO) in
  let calls := (Unschedule <$> changed) ++ [report] in
  (∀ o, o ∈ changed → returns env (Unschedule o)) →
  returns env report →
  disable_selected env request queryset tr = (tr ++ calls, inr tt)
  ∧ (length enabled_rows + length disabled_rows = length queryset)%nat
  ∧ (∀ o', Unschedule o' ∈ calls →
       enabled o' = false
       ∧ ∃ o, o ∈ queryset ∧ enabled o = true ∧ o' = set_enabled false o)
  ∧ (∀ o, o ∈ enabled_rows → Unschedule (set_enabled false o) ∈ calls)
  ∧ (∀ o, Save o ∉ calls).
Proof.
  intros enabled_rows disabled_rows changed k report calls Hcalls Hreport.
  split; [|split; [|split; [|split]]].
  - pose proof (disable_selected_run env request queryset tr) as Hrun.
    simpl in Hrun. rewrite length_fmap in Hrun. by apply Hrun.
  - apply filter_enabled_partition.
  - intros o' [Hin|Hin]%elem_of_app.
    + apply list_elem_of_fmap in Hin as (o1 & [= ->] & Ho1).
      apply list_elem_of_fmap in Ho1 as (o & -> & Ho).
      apply elem_of_filter_enabled in Ho as [Hon Ho].
      split; [done|]. by exists o.
    + by apply list_elem_of_singleton in Hin.
  - intros o Ho. apply elem_of_app. left.
    apply list_elem_of_fmap. exists (set_enabled false o). split; [done|].
    apply list_elem_of_fmap. by exists o.
  - intros o [Hin|Hin]%elem_of_app.
    + by apply list_elem_of_fmap in Hin as (o1 & [=] & _).
    + by apply list_elem_of_singleton in Hin.
Qed.

Lemma disable_selected_unschedules_enabled_witness :
  disable_selected quiet (mkRequest ∅) [nightly; weekly; hourly] []
    = ([Unschedule (mkTask 1 "nightly" false "default");
        Unschedule (mkTask 3 "hourly" false "high");
        MessageUser "2 tasks were successfully disabled and unscheduled." INFO],
       inr tt).
Proof.
  apply (disable_selected_unschedules_enabled quiet (mkRequest ∅)
           [nightly; weekly; hourly] []); intros; intro; reflexivity.
Defined.

(** C1, the code at the failing input: on a selection of one enabled and one
    disabled row, with every collaborator returning, [disable_selected] sets
    the flag on the object of the enabled row, hands it to [unschedule] and
    reports one task disabled, and it never calls [save] on it, which
    [enable_selected] does on the row it flips in the same selection.  The
    cleared flag is stored only if [unschedule] stores it. *)
Lemma disable_selected_makes_no_save_call :
  disable_selected quiet (mkRequest ∅) [nightly; weekly] []
    = ([Unschedule (mkTask 1 "nightly" false "default");
        MessageUser "1 task was successfully disabled and unscheduled." INFO],
       inr tt)
  ∧ (∀ o, Save o ∉ (disable_selected quiet (mkRequest ∅) [nightly; weekly] []).1)
  ∧ Save (mkTask 2 "weekly" true "default")
      ∈ (enable_selected quiet (mkRequest ∅) [nightly; weekly] []).1.
Proof.
  split; [reflexivity|split].
  - intros o H. vm_compute in H.
    repeat (apply elem_of_cons in H as [H|H]; [discriminate H|]).
    by apply elem_of_nil in H.
  - vm_compute. left.
Qed.



(** C6: when the calls it makes return, [enqueue_job_now] calls
    [enqueue_to_run] on every selected row, enabled or not, in selection
    order, and its message lists the names of all of them in that order,
    joined by a comma and a space. *)
Theorem enqueue_job_now_runs_every_row env request (queryset : QuerySet) tr :
  let report :=
    MessageUser ("The following jobs have been enqueued: "
                 +:+ String.concat ", " (name <$> queryset)) INFO in
  (∀ o, o ∈ queryset → returns env (EnqueueToRun o)) →
  returns env report →
  enqueue_job_now env request queryset tr
    = (tr ++ (EnqueueToRun <$> queryset) ++ [report], inr tt).
Proof. intros report Hcalls Hreport. by apply enqueue_job_now_run. Qed.

Lemma enqueue_job_now_runs_every_row_witness :
  enqueue_job_now quiet (mkRequest ∅) [nightly; weekly; hourly] []
    = ([EnqueueToRun nightly; EnqueueToRun weekly; EnqueueToRun hourly;
        MessageUser "The following jobs have been enqueued: nightly, weekly, hourly"
                    INFO],
       inr tt).
Proof.
  apply (enqueue_job_now_runs_every_row quiet (mkRequest ∅)
           [nightly; weekly; hourly] []); intros; intro; reflexivity.
Defined.

(** C2 (amended): when the collaborators return, [migrate_selected],
    [disable_selected] and [enable_selected] end with a message made of
    [get_message_bit] of their count ("1 task was" for one, the decimal count
    and " tasks were" otherwise) and their own ending, at level WARNING when
    the count is zero and INFO otherwise; [enqueue_job_now] reports no count:
    it ends with the list of the selected names at level INFO, whatever the
    selection. *)
Theorem bulk_actions_report env request (queryset : QuerySet) tr :
  (∀ c, returns env c) →
  let report k ending :=
    MessageUser (get_message_bit k +:+ ending)
                (if bool_decide (k = 0) then WARNING else INFO) in
  last (migrate_selected env request queryset tr).1
    = Some (report (Z.of_nat (length queryset))
                   " successfully migrated to new model.")
  ∧ last (disable_selected env request queryset tr).1
    = Some (report (Z.of_nat (length (filter_enabled true queryset)))
                   " successfully disabled and unscheduled.")
  ∧ last (enable_selected env request queryset tr).1
    = Some (report (Z.of_nat (length (filter_enabled false queryset)))
                   " successfully enabled and scheduled.")
  ∧ last (enqueue_job_now env request queryset tr).1
    = Some (MessageUser ("The following jobs have been enqueued: "
                         +:+ String.concat ", " (name <$> queryset)) INFO)
  ∧ get_message_bit 1 = "1 task was"
  ∧ (∀ n, n ≠ 1 → get_message_bit n = pretty n +:+ " tasks were").
Proof.
  intros Hret report. repeat split.
  - rewrite migrate_selected_run by (intros; apply Hret).
    simpl. by rewrite app_assoc, last_snoc.
  - rewrite disable_selected_run by (intros; apply Hret).
    simpl. by rewrite app_assoc, last_snoc, length_fmap.
  - rewrite enable_selected_run by (intros; apply Hret).
    simpl. by rewrite app_assoc, last_snoc, length_fmap.
  - rewrite enqueue_job_now_run by (intros; apply Hret).
    simpl. by rewrite app_assoc, last_snoc.
  - intros n Hn. unfold get_message_bit. by rewrite bool_decide_false.
Qed.

Lemma bulk_actions_report_witness :
  last (migrate_selected quiet (mkRequest ∅) [nightly; weekly] []).1
    = Some (MessageUser "2 tasks were successfully migrated to new model." INFO).
Proof.
  apply (bulk_actions_report quiet (mkRequest ∅) [nightly; weekly] []).
  intros c tr. reflexivity.
Defined.

(** C2 as stated fails for [enqueue_job_now]: on the empty selection, where
    nothing is enqueued, its message carries no count and goes out at level
    INFO, not WARNING. *)
Lemma enqueue_job_now_empty_selection_is_info :
  enqueue_job_now quiet (mkRequest ∅) [] []
    = ([MessageUser "The following jobs have been enqueued: " INFO], inr tt)
  ∧ INFO ≠ WARNING
  ∧ ∀ ending,
      "The following jobs have been enqueued: " ≠ get_message_bit 0 +:+ ending.
Proof.
  split; [reflexivity|split; [discriminate|]].
  intros ending. vm_compute. discriminate.
Qed.

(** ** The delete hooks *)

Lemma unschedules_remove_nothing (l : list Task) :
  unschedule_precedes_removal (Unschedule <$> l).
Proof.
  intros pre c post k Heq Hk.
  assert (c ∈ Unschedule <$> l) as Hc.
  { rewrite Heq. apply elem_of_app. right. by left. }
  apply list_elem_of_fmap in Hc as (o & -> & _). by apply elem_of_nil in Hk.
Qed.

Lemma unschedules_then_delete (queryset : QuerySet) :
  unschedule_precedes_removal
    ((Unschedule <$> queryset) ++ [SuperDeleteQueryset queryset]).
Proof.
  intros pre c post k Heq Hk. symmetry in Heq.
  apply split_before_last in Heq as [Hc|[-> ->]].
  - apply list_elem_of_fmap in Hc as (o & -> & _). by apply elem_of_nil in Hk.
  - simpl in Hk. apply list_elem_of_fmap in Hk as (o & -> & Ho).
    exists o. split; [|done]. apply list_elem_of_fmap. by exists o.
Qed.

(** C5: in whatever way the collaborators answer, every removal that
    [delete_queryset] or [delete_model] asks of the framework comes after an
    [unschedule] call on the object of the removed row, so a row whose
    [unschedule] was not called, or raised, is not removed; and when the calls
    return, both hooks do unschedule every row and then remove them. *)
Theorem unschedule_before_removal env request :
  (∀ (queryset : QuerySet) tr, ∃ calls,
      (delete_queryset env request queryset tr).1 = tr ++ calls
      ∧ unschedule_precedes_removal calls)
  ∧ (∀ obj tr, ∃ calls,
      (delete_model env request obj tr).1 = tr ++ calls
      ∧ unschedule_precedes_removal calls)
  ∧ (∀ (queryset : QuerySet) tr,
      (∀ o, o ∈ queryset → returns env (Unschedule o)) →
      returns env (SuperDeleteQueryset queryset) →
      delete_queryset env request queryset tr
        = (tr ++ (Unschedule <$> queryset) ++ [SuperDeleteQueryset queryset],
           inr tt))
  ∧ (∀ obj tr,
      returns env (Unschedule obj) →
      returns env (SuperDeleteModel obj) →
      delete_model env request obj tr
        = (tr ++ [Unschedule obj; SuperDeleteModel obj], inr tt)).
Proof.
  split; [|split; [|split]].
  - intros queryset tr. unfold delete_queryset. rewrite bind_run.
    destruct (for_calls_cases env (λ _ job, unschedule env job) Unschedule
                (λ _ _, tt) (call_only env Unschedule) queryset tt tr)
      as [Hall|(l1 & x & l2 & e & -> & Hstop)].
    + rewrite Hall. simpl.
      exists ((Unschedule <$> queryset) ++ [SuperDeleteQueryset queryset]).
      split; [by rewrite app_assoc|apply unschedules_then_delete].
    + rewrite Hstop. simpl. exists (Unschedule <$> (l1 ++ [x])).
      split; [by rewrite fmap_app|apply unschedules_remove_nothing].
  - intros obj tr. unfold delete_model, unschedule. rewrite bind_run.
    destruct (raises env tr (Unschedule obj)) as [e|] eqn:Hx.
    + rewrite (call_raises env _ e) by done. exists (Unschedule <$> [obj]).
      split; [done|apply unschedules_remove_nothing].
    + rewrite call_returns by done.
      exists [Unschedule obj; SuperDeleteModel obj]. split.
      * simpl. by rewrite <-app_assoc.
      * intros pre c post k Heq Hk. symmetry in Heq.
        apply (split_before_last _ _ [Unschedule obj]) in Heq as [Hc|[-> ->]].
        -- apply list_elem_of_singleton in Hc as ->. by apply elem_of_nil in Hk.
        -- simpl in Hk. apply list_elem_of_singleton in Hk as ->.
           exists obj. split; [by left|done].
  - intros queryset tr Hcalls Hdelete. unfold delete_queryset. rewrite bind_run.
    rewrite (for_calls_return env (λ _ job, unschedule env job) Unschedule
               (λ _ _, tt) (call_only env Unschedule)) by done.
    rewrite call_returns by apply Hdelete.
    by rewrite <-app_assoc.
  - intros obj tr Hcall Hdelete. unfold delete_model, unschedule.
    rewrite bind_run, call_returns by apply Hcall.
    rewrite call_returns by apply Hdelete. by rewrite <-app_assoc.
Qed.

Lemma unschedule_before_removal_witness :
  delete_queryset quiet (mkRequest ∅) [nightly; weekly] []
    = ([Unschedule nightly; Unschedule weekly;
        SuperDeleteQueryset [nightly; weekly]], inr tt).
Proof.
  apply (unschedule_before_removal quiet (mkRequest ∅)); intros; intro;
    reflexivity.
Defined.

(** ** The paginator *)

Section PaginatorFacts.

Variable int : string → option Z.

Lemma num_pages_positive p :
  0 < per_page p → ∃ np, num_pages p = inr np ∧ 1 ≤ np.
Proof.
  intros Hpp. unfold num_pages.
  rewrite bool_decide_false by lia. eexists; split; [done|].
  assert (0 ≤ count p) by (unfold count; lia).
  pose proof (Z.div_mod (- Z.max 1 (count p - 0)) (per_page p) ltac:(lia)).
  pose proof (Z.mod_pos_bound (- Z.max 1 (count p - 0)) (per_page p) Hpp).
  assert (Z.div (- Z.max 1 (count p - 0)) (per_page p) < 0) by nia. lia.
Qed.

Lemma num_pages_empty pp :
  0 < pp → num_pages (mkPaginator [] pp) = inr 1.
Proof.
  intros Hpp. unfold num_pages, count. simpl.
  rewrite bool_decide_false by lia. f_equal.
  change (Z.opp (Z.max 1 (Z.of_nat 0 - 0))) with (-1).
  pose proof (Z.div_mod (-1) pp ltac:(lia)).
  pose proof (Z.mod_pos_bound (-1) pp Hpp).
  assert (Z.div (-1) pp < 0) by nia. assert (-2 < Z.div (-1) pp) by nia. lia.
Qed.

Lemma page_in_range p n np :
  num_pages p = inr np → 1 ≤ n ≤ np →
  ∃ objects, page int p (ArgInt n) = inr (mkPage objects n).
Proof.
  intros Hnp Hn. unfold page, validate_number. rewrite Hnp.
  rewrite !bool_decide_false by lia. by eexists.
Qed.

(** With a positive page size [get_page] always gives a page. *)
Lemma get_page_total p arg :
  0 < per_page p → ∃ pg, get_page int p arg = inr pg.
Proof.
  intros Hpp. destruct (num_pages_positive p Hpp) as (np & Hnp & Hpos).
  assert (∀ n, 1 ≤ n ≤ np → ∃ pg, page int p (ArgInt n) = inr pg) as Hpage.
  { intros n Hn. destruct (page_in_range p n np Hnp Hn) as [objects ->]. eauto. }
  unfold get_page, validate_number. rewrite Hnp.
  destruct (match arg with ArgInt n => Some n | ArgStr s => int s end) as [n|].
  - case_bool_decide.
    + simpl. apply Hpage. lia.
    + case_bool_decide.
      * simpl. apply Hpage. lia.
      * apply Hpage. lia.
  - simpl. apply Hpage. lia.
Qed.

(** The only page of an empty history is page 1, and it is empty. *)
Lemma get_page_empty pp arg :
  0 < pp → get_page int (mkPaginator [] pp) arg = inr (mkPage [] 1).
Proof.
  intros Hpp.
  assert (page int (mkPaginator [] pp) (ArgInt 1) = inr (mkPage [] 1)) as Hone.
  { unfold page, validate_number. rewrite num_pages_empty by done.
    rewrite (bool_decide_false (1 < 1)), (bool_decide_false (1 > 1)) by lia.
    unfold count. simpl. by rewrite bool_decide_true by lia. }
  unfold get_page, validate_number. rewrite num_pages_empty by done.
  destruct (match arg with ArgInt n => Some n | ArgStr s => int s end) as [n|].
  - case_bool_decide; [done|].
    case_bool_decide; [done|].
    by replace n with 1 by lia.
  - done.
Qed.

End PaginatorFacts.

(** ** The detail view *)

Section DetailView.

Variable ConnectionErrorTypes : list string.
Variable EXECUTIONS_IN_PAGE : Z.
Variable int : string → option Z.
Variable env : Env.
Variable request : HttpRequest.
Variables (object_id : Z) (form_url : string).
Variable extra_context : option (gmap string CtxValue).

(** C4: when the object exists and the fetch of its executions raises an
    exception of one of the connection error classes, the view (with a
    positive page size, and the logger and the superclass view returning)
    logs the warning, goes on with the empty list and hands the superclass
    view a context whose page of executions is empty and whose pagination
    flag is off; it returns instead of raising. *)
Theorem change_view_survives_connection_error tr obj e :
  let fetch := GetJobExecutionsForTask (queue obj) obj in
  let warning := LoggerWarn ("Could not get job executions: " +:+ exn_str e) in
  returns env (GetObject object_id) →
  get_object_result env tr object_id = Some obj →
  raises env (tr ++ [GetObject object_id]) fetch = Some e →
  isinstance e ConnectionErrorTypes = true →
  returns env warning →
  (∀ extra, returns env (SuperChangeView object_id form_url extra)) →
  0 < EXECUTIONS_IN_PAGE →
  ∃ extra,
    change_view ConnectionErrorTypes EXECUTIONS_IN_PAGE int env
        request object_id form_url extra_context tr
      = (tr ++ [GetObject object_id; fetch; warning;
                SuperChangeView object_id form_url extra], inr extra)
    ∧ extra !! "executions" = Some (VPage (mkPage [] 1))
    ∧ extra !! "pagination_required" = Some (VBool false).
Proof.
  intros fetch warning Hget Hobj Hfetch Hconn Hwarn Hsuper Hpp.
  unfold change_view, get_object, get_job_executions_for_task, try_except.
  rewrite bind_run, ask_returns by apply Hget. rewrite Hobj.
  rewrite bind_run, (ask_raises env _ _ e) by apply Hfetch.
  rewrite Hconn, bind_run, call_returns by apply Hwarn.
  unfold mret at 1, M_ret at 1, lift, get_paginator.
  rewrite get_page_empty by done.
  rewrite bind_run. cbv beta iota.
  rewrite bind_run, call_returns by apply Hsuper.
  eexists. split; [|split].
  - unfold mret, M_ret. by rewrite <-!app_assoc.
  - by simplify_map_eq.
  - simplify_map_eq. unfold count. simpl.
    by rewrite bool_decide_false by lia.
Qed.

(** C10: when the object exists and the calls return (with a positive page
    size), the context handed to the superclass view has its pagination flag
    on exactly when the number of executions fetched is greater than the page
    size; a history of exactly one full page has it off. *)
Theorem pagination_required_iff_more_than_a_page tr obj :
  let fetch := GetJobExecutionsForTask (queue obj) obj in
  let executions :=
    job_executions env (tr ++ [GetObject object_id]) (queue obj) obj in
  returns env (GetObject object_id) →
  get_object_result env tr object_id = Some obj →
  returns env fetch →
  (∀ extra, returns env (SuperChangeView object_id form_url extra)) →
  0 < EXECUTIONS_IN_PAGE →
  ∃ extra flag,
    change_view ConnectionErrorTypes EXECUTIONS_IN_PAGE int env
        request object_id form_url extra_context tr
      = (tr ++ [GetObject object_id; fetch;
                SuperChangeView object_id form_url extra], inr extra)
    ∧ extra !! "pagination_required" = Some (VBool flag)
    ∧ (flag = true ↔ Z.of_nat (length executions) > EXECUTIONS_IN_PAGE)
    ∧ (Z.of_nat (length executions) = EXECUTIONS_IN_PAGE → flag = false).
Proof.
  intros fetch executions Hget Hobj Hfetch Hsuper Hpp.
  unfold change_view, get_object, get_job_executions_for_task, try_except.
  rewrite bind_run, ask_returns by apply Hget. rewrite Hobj.
  rewrite bind_run, ask_returns by apply Hfetch.
  unfold lift, get_paginator. fold executions.
  destruct (get_page_total int (mkPaginator executions EXECUTIONS_IN_PAGE)
              (default (ArgInt 1) (ArgStr <$> GET request !! "p")) Hpp)
    as [pg ->].
  rewrite bind_run. cbv beta iota.
  rewrite bind_run, call_returns by apply Hsuper.
  eexists. exists (bool_decide (Z.of_nat (length executions) > EXECUTIONS_IN_PAGE)).
  split; [|split; [|split]].
  - unfold mret, M_ret. by rewrite <-!app_assoc.
  - by simplify_map_eq.
  - apply bool_decide_eq_true.
  - intros Heq. apply bool_decide_eq_false. lia.
Qed.

End DetailView.

Lemma change_view_survives_connection_error_witness :
  ∃ extra,
    change_view ["ConnectionError"; "TimeoutError"] 20 (λ _, None) broker_down
        (mkRequest ∅) 1 "" None []
      = ([GetObject 1; GetJobExecutionsForTask "default" nightly;
          LoggerWarn "Could not get job executions: Error 111 connecting to localhost:6379.";
          SuperChangeView 1 "" extra], inr extra)
    ∧ extra !! "executions" = Some (VPage (mkPage [] 1))
    ∧ extra !! "pagination_required" = Some (VBool false).
Proof.
  apply (change_view_survives_connection_error
           ["ConnectionError"; "TimeoutError"] 20 (λ _, None) broker_down
           (mkRequest ∅) 1 "" None [] nightly
           (mkExn ["ConnectionError"; "RedisError"; "Exception";
                   "BaseException"; "object"]
                  "Error 111 connecting to localhost:6379."));
    try reflexivity; intros; intro; reflexivity.
Defined.

Lemma pagination_required_iff_more_than_a_page_witness :
  ∃ extra flag,
    change_view ["ConnectionError"] 3 (λ _, None) three_runs
        (mkRequest ∅) 1 "" None []
      = ([GetObject 1; GetJobExecutionsForTask "default" nightly;
          SuperChangeView 1 "" extra], inr extra)
    ∧ extra !! "pagination_required" = Some (VBool flag)
    ∧ (flag = true ↔ 3 > 3)
    ∧ (3 = 3 → flag = false).
Proof.
  apply (pagination_required_iff_more_than_a_page
           ["ConnectionError"] 3 (λ _, None) three_runs
           (mkRequest ∅) 1 "" None [] nightly);
    try reflexivity; intros; intro; reflexivity.
Defined.

(** * Further properties *)

(** ** Columns and fieldsets of every accepted model *)

Lemma list_display_extra_cases n extra :
  _LIST_DISPLAY_EXTRA !! n = Some extra →
  n ∈ ["CronTask"; "ScheduledTask"; "RepeatableTask"]
  ∧ _LIST_DISPLAY_EXTRA !! n = Some extra.
Proof.
  intros H. split; [|done]. unfold _LIST_DISPLAY_EXTRA in H.
  rewrite !lookup_insert_Some, lookup_empty in H.
  rewrite !elem_of_cons.
  destruct H as [[<- _]|[_ [[<- _]|[_ [[<- _]|[_ [=]]]]]]]; auto.
Qed.

Lemma fieldset_extra_cases n extra :
  _FIELDSET_EXTRA !! n = Some extra →
  n ∈ ["CronTask"; "ScheduledTask"; "RepeatableTask"]
  ∧ _FIELDSET_EXTRA !! n = Some extra.
Proof.
  intros H. split; [|done]. unfold _FIELDSET_EXTRA in H.
  rewrite !lookup_insert_Some, lookup_empty in H.
  rewrite !elem_of_cons.
  destruct H as [[<- _]|[_ [[<- _]|[_ [[<- _]|[_ [=]]]]]]]; auto.
Qed.

(** Case analysis on a name known to be one of the three variants. *)
Ltac three_variants Hin :=
  repeat (apply elem_of_cons in Hin as [->|Hin]); [| | |by apply elem_of_nil in Hin].

(** X1: whenever [get_list_display] returns, the columns start with the base
    columns, no column is listed twice, and every column of
    [list_display_links] is among them. *)
Theorem list_columns_well_formed model request cols :
  get_list_display model request = inr cols →
  take (length list_display) cols = list_display
  ∧ NoDup cols
  ∧ list_display_links ⊆ cols.
Proof.
  unfold get_list_display. intros H.
  destruct (_LIST_DISPLAY_EXTRA !! __name__ model) as [extra|] eqn:Hextra;
    [|discriminate H].
  injection H as <-.
  apply list_display_extra_cases in Hextra as [Hin Hextra].
  split; [reflexivity|].
  revert Hextra. generalize (__name__ model) Hin. clear Hin.
  intros n Hin Hextra. three_variants Hin;
    vm_compute in Hextra; injection Hextra as <-;
    (split; [by apply (bool_decide_unpack _)|]);
    intros c Hc; apply list_elem_of_singleton in Hc as ->;
    by apply (bool_decide_unpack _).
Qed.

Lemma list_columns_well_formed_witness :
  take (length list_display)
       (list_display ++ ["scheduled_time"]) = list_display
  ∧ NoDup (list_display ++ ["scheduled_time"])
  ∧ list_display_links ⊆ list_display ++ ["scheduled_time"].
Proof.
  apply (list_columns_well_formed (mkModel "ScheduledTask" "scheduler.models")
           (mkRequest ∅)).
  reflexivity.
Defined.

(** X2: whenever [get_fieldsets] returns, it gives the two base fieldsets and
    a third one titled "Scheduling"; over the three, no field appears twice
    and every read-only field is shown. *)
Theorem fieldsets_well_formed model request obj fss :
  get_fieldsets model request obj = inr fss →
  (∃ extra, fss = fieldsets ++ [mkFieldset (Some "Scheduling") extra])
  ∧ NoDup (flatten_fieldsets fss)
  ∧ readonly_fields ⊆ flatten_fieldsets fss.
Proof.
  unfold get_fieldsets. intros H.
  destruct (_FIELDSET_EXTRA !! __name__ model) as [extra|] eqn:Hextra;
    [|discriminate H].
  injection H as <-.
  apply fieldset_extra_cases in Hextra as [Hin Hextra].
  split; [by exists extra|].
  revert Hextra. generalize (__name__ model) Hin. clear Hin.
  intros n Hin Hextra. three_variants Hin;
    vm_compute in Hextra; injection Hextra as <-;
    (split; [by apply (bool_decide_unpack _)|]);
    intros c Hc; apply list_elem_of_singleton in Hc as ->;
    by apply (bool_decide_unpack _).
Qed.

Lemma fieldsets_well_formed_witness :
  NoDup (flatten_fieldsets
           (fieldsets ++ [mkFieldset (Some "Scheduling")
                            [Field "scheduled_time"; Field "timeout";
                             Field "result_ttl"]])).
Proof.
  apply (fieldsets_well_formed (mkModel "ScheduledTask" "scheduler.models")
           (mkRequest ∅) None).
  reflexivity.
Defined.

(** ** Handlers when a collaborator raises *)

Section Failures.

Variable env : Env.

Section OneCallLoopsStopping.

Context {A S : Type} (body : S → A → M S) (f : A → Call) (g : S → A → S).

Hypothesis body_calls : ∀ s x tr,
  body s x tr = (tr ++ [f x],
                 match raises env tr (f x) with
                 | Some e => inl e
                 | None => inr (g s x)
                 end).

(** The loop stops at the first element whose call raises: the elements
    before it have been called, the ones after it have not. *)
Lemma for_calls_stop (l1 : list A) x (l2 : list A) e s tr :
  (∀ y, y ∈ l1 → returns env (f y)) →
  raises env (tr ++ (f <$> l1)) (f x) = Some e →
  for_ (l1 ++ x :: l2) body s tr = (tr ++ (f <$> l1) ++ [f x], inl e).
Proof.
  revert s tr. induction l1 as [|y l1 IH]; intros s tr Hret Hx.
  - change (f <$> []) with (@nil Call) in *. rewrite app_nil_r in Hx.
    change ([] ++ x :: l2) with (x :: l2).
    rewrite (for_call_step env body f g body_calls). by rewrite Hx.
  - change (f <$> y :: l1) with (f y :: (f <$> l1)) in *.
    rewrite <-app_comm_cons.
    rewrite (for_call_step env body f g body_calls), (Hret y) by left.
    rewrite IH.
    + by rewrite <-app_assoc.
    + intros z Hz. apply Hret. by right.
    + by rewrite <-app_assoc.
Qed.

(** Whatever the collaborators answer, the loop calls nothing but [f] on
    elements of the list. *)
Lemma for_calls_vocabulary (l : list A) s tr :
  ∃ calls,
    (for_ l body s tr).1 = tr ++ calls
    ∧ (∀ c, c ∈ calls → ∃ x, x ∈ l ∧ c = f x)
    ∧ (∀ s', (for_ l body s tr).2 = inr s' → s' = foldl g s l).
Proof.
  destruct (for_calls_cases env body f g body_calls l s tr)
    as [Hall|(l1 & x & l2 & e & -> & Hstop)].
  - rewrite Hall. exists (f <$> l). split; [done|split].
    + intros c (x & -> & Hx)%list_elem_of_fmap. eauto.
    + by intros s' [= <-].
  - rewrite Hstop. exists ((f <$> l1) ++ [f x]). split; [done|split].
    + intros c [(y & -> & Hy)%list_elem_of_fmap|Hc%list_elem_of_singleton]%elem_of_app.
      * exists y. split; [|done]. apply elem_of_app. by left.
      * exists x. split; [|done]. apply elem_of_app. right. by left.
    + intros s' [=].
Qed.

End OneCallLoopsStopping.

Variable request : HttpRequest.

(** X3: in each bulk action, when the call on some row raises, the action
    raises the same exception at once: the rows before it have been handled,
    the rows after it are left alone, and no message is sent. *)
Theorem bulk_action_stops_at_first_failure (queryset : QuerySet) :
  let stops (f : Task → Call) (rows : list Task) (run : M unit) :=
    ∀ l1 x l2 e tr,
      rows = l1 ++ x :: l2 →
      (∀ y, y ∈ l1 → returns env (f y)) →
      raises env (tr ++ (f <$> l1)) (f x) = Some e →
      run tr = (tr ++ (f <$> l1) ++ [f x], inl e) in
  stops Migrate queryset (migrate_selected env request queryset)
  ∧ stops (λ o, Unschedule (set_enabled false o))
          (filter_enabled true queryset)
          (disable_selected env request queryset)
  ∧ stops (λ o, Save (set_enabled true o))
          (filter_enabled false queryset)
          (enable_selected env request queryset)
  ∧ stops EnqueueToRun queryset (enqueue_job_now env request queryset).
Proof.
  intros stops. repeat split; intros l1 x l2 e tr Hrows Hret Hx.
  - unfold migrate_selected, iterator, migrate. rewrite bind_run, Hrows.
    by rewrite (for_calls_stop _ Migrate (λ n _, n + 1)
                  (call_then_update env _ _) l1 x l2 e).
  - unfold disable_selected, iterator, unschedule. rewrite bind_run, Hrows.
    by rewrite (for_calls_stop _ (λ o, Unschedule (set_enabled false o))
                  (λ n _, n + 1) (call_then_update env _ _) l1 x l2 e).
  - unfold enable_selected, iterator, save. rewrite bind_run, Hrows.
    by rewrite (for_calls_stop _ (λ o, Save (set_enabled true o))
                  (λ n _, n + 1) (call_then_update env _ _) l1 x l2 e).
  - unfold enqueue_job_now, enqueue_to_run. rewrite bind_run, Hrows.
    by rewrite (for_calls_stop _ EnqueueToRun
                  (λ task_names task, task_names ++ [name task])
                  (call_then_update env _ _) l1 x l2 e).
Qed.

(** A loop followed by the report adds at most one [message_user] call. *)
Lemma then_report_vocabulary {S} (loop : M S) (message : S → string)
    (level : S → option Level) (allowed : Call → Prop) tr :
  (∃ calls, (loop tr).1 = tr ++ calls ∧ ∀ c, c ∈ calls → allowed c) →
  ∃ calls,
    ((loop ≫= λ s, message_user env request (message s) (level s)) tr).1
      = tr ++ calls
    ∧ ∀ c, c ∈ calls → allowed c ∨ ∃ msg lvl, c = MessageUser msg lvl.
Proof.
  intros (calls & Htr & Hcalls). rewrite bind_run.
  destruct (loop tr) as [tr' [e|s]]; simpl in *; subst tr'.
  - exists calls. split; [done|]. intros c Hc. left. by apply Hcalls.
  - exists (calls ++ [MessageUser (message s) (default INFO (level s))]).
    split; [by rewrite app_assoc|].
    intros c [Hc|Hc%list_elem_of_singleton]%elem_of_app.
    + left. by apply Hcalls.
    + right. eauto.
Qed.

(** X4: whatever the collaborators answer, [disable_selected] calls only
    [unschedule] on enabled rows with the flag cleared, [enable_selected] only
    [save] on disabled rows with the flag set, [migrate_selected] only
    [migrate] and [enqueue_job_now] only [enqueue_to_run] on rows as selected,
    each besides [message_user]. *)
Theorem bulk_actions_call_only_their_collaborator (queryset : QuerySet) tr :
  let only (run : M unit) (allowed : Call → Prop) :=
    ∃ calls, (run tr).1 = tr ++ calls
             ∧ ∀ c, c ∈ calls → allowed c ∨ ∃ msg lvl, c = MessageUser msg lvl in
  only (migrate_selected env request queryset)
       (λ c, ∃ o, o ∈ queryset ∧ c = Migrate o)
  ∧ only (disable_selected env request queryset)
         (λ c, ∃ o, o ∈ queryset ∧ enabled o = true
                    ∧ c = Unschedule (set_enabled false o))
  ∧ only (enable_selected env request queryset)
         (λ c, ∃ o, o ∈ queryset ∧ enabled o = false
                    ∧ c = Save (set_enabled true o))
  ∧ only (enqueue_job_now env request queryset)
         (λ c, ∃ o, o ∈ queryset ∧ c = EnqueueToRun o).
Proof.
  intros only. subst only. cbv beta. split; [|split; [|split]].
  - unfold migrate_selected, iterator, migrate.
    apply (then_report_vocabulary _
             (λ n, get_message_bit n +:+ " successfully migrated to new model.")
             (λ n, Some (if bool_decide (n = 0) then WARNING else INFO))).
    destruct (for_calls_vocabulary _ Migrate (λ n _, n + 1)
                (call_then_update env _ _) queryset 0 tr)
      as (calls & Htr & Hcalls & _).
    exists calls. split; [done|]. intros c (o & Ho & ->)%Hcalls. eauto.
  - unfold disable_selected, iterator, unschedule.
    apply (then_report_vocabulary _
             (λ n, get_message_bit n +:+ " successfully disabled and unscheduled.")
             (λ n, Some (if bool_decide (n = 0) then WARNING else INFO))).
    destruct (for_calls_vocabulary _ (λ o, Unschedule (set_enabled false o))
                (λ n _, n + 1) (call_then_update env _ _)
                (filter_enabled true queryset) 0 tr)
      as (calls & Htr & Hcalls & _).
    exists calls. split; [done|].
    intros c (o & [Hon Ho]%elem_of_filter_enabled & ->)%Hcalls. eauto.
  - unfold enable_selected, iterator, save.
    apply (then_report_vocabulary _
             (λ n, get_message_bit n +:+ " successfully enabled and scheduled.")
             (λ n, Some (if bool_decide (n = 0) then WARNING else INFO))).
    destruct (for_calls_vocabulary _ (λ o, Save (set_enabled true o))
                (λ n _, n + 1) (call_then_update env _ _)
                (filter_enabled false queryset) 0 tr)
      as (calls & Htr & Hcalls & _).
    exists calls. split; [done|].
    intros c (o & [Hoff Ho]%elem_of_filter_enabled & ->)%Hcalls. eauto.
  - unfold enqueue_job_now, enqueue_to_run.
    apply (then_report_vocabulary _
             (λ task_names, "The following jobs have been enqueued: "
                            +:+ String.concat ", " task_names)
             (λ _, None)).
    destruct (for_calls_vocabulary _ EnqueueToRun
                (λ task_names task, task_names ++ [name task])
                (call_then_update env _ _) queryset [] tr)
      as (calls & Htr & Hcalls & _).
    exists calls. split; [done|]. intros c (o & Ho & ->)%Hcalls. eauto.
Qed.

End Failures.

Lemma bulk_action_stops_at_first_failure_witness :
  disable_selected hourly_stuck (mkRequest ∅) [nightly; weekly; hourly] []
    = ([Unschedule (mkTask 1 "nightly" false "default");
        Unschedule (mkTask 3 "hourly" false "high")],
       inl (mkExn ["ConnectionError"; "RedisError"; "Exception";
                   "BaseException"; "object"] "Connection reset by peer")).
Proof.
  apply (proj1 (proj2 (bulk_action_stops_at_first_failure hourly_stuck
                         (mkRequest ∅) [nightly; weekly; hourly]))
           [nightly] hourly []).
  - reflexivity.
  - intros y Hy tr. apply list_elem_of_singleton in Hy as ->. reflexivity.
  - reflexivity.
Defined.

Lemma filter_enabled_none b (queryset : QuerySet) :
  (∀ o, o ∈ queryset → enabled o = negb b) → filter_enabled b queryset = [].
Proof.
  unfold filter_enabled. induction queryset as [|o l IH]; intros Hall; [done|].
  rewrite filter_cons_False.
  - apply IH. intros o' Ho'. apply Hall. by right.
  - rewrite (Hall o) by left. by destruct b.
Qed.

(** X5: a selection in which no row is enabled makes [disable_selected] call
    no collaborator at all and send "0 tasks were successfully disabled and
    unscheduled." as a warning; a selection in which every row is enabled does
    the same to [enable_selected]. *)
Theorem nothing_to_flip_gives_only_a_warning env request (queryset : QuerySet) tr :
  (∀ msg, returns env (MessageUser msg WARNING)) →
  ((∀ o, o ∈ queryset → enabled o = false) →
   disable_selected env request queryset tr
     = (tr ++ [MessageUser "0 tasks were successfully disabled and unscheduled."
                           WARNING], inr tt))
  ∧ ((∀ o, o ∈ queryset → enabled o = true) →
     enable_selected env request queryset tr
       = (tr ++ [MessageUser "0 tasks were successfully enabled and scheduled."
                             WARNING], inr tt)).
Proof.
  intros Hreport. split; intros Hall.
  - pose proof (disable_selected_run env request queryset tr) as Hrun.
    rewrite (filter_enabled_none true) in Hrun by done.
    apply Hrun; [by intros o ?%elem_of_nil|apply Hreport].
  - pose proof (enable_selected_run env request queryset tr) as Hrun.
    rewrite (filter_enabled_none false) in Hrun by done.
    apply Hrun; [by intros o ?%elem_of_nil|apply Hreport].
Qed.

Lemma nothing_to_flip_gives_only_a_warning_witness :
  disable_selected quiet (mkRequest ∅) [weekly] []
    = ([MessageUser "0 tasks were successfully disabled and unscheduled." WARNING],
       inr tt).
Proof.
  apply (nothing_to_flip_gives_only_a_warning quiet (mkRequest ∅) [weekly] []).
  - intros msg tr. reflexivity.
  - intros o Ho. apply list_elem_of_singleton in Ho as ->. reflexivity.
Defined.

(** X6: when [unschedule] raises on a row, [delete_queryset] raises the same
    exception without asking for any removal and without unscheduling the rows
    after it, the rows before it staying unscheduled; [delete_model] likewise
    raises without removing the object. *)
Theorem delete_aborts_when_unschedule_raises env request :
  (∀ (l1 : list Task) x l2 e tr,
      (∀ o, o ∈ l1 → returns env (Unschedule o)) →
      raises env (tr ++ (Unschedule <$> l1)) (Unschedule x) = Some e →
      delete_queryset env request (l1 ++ x :: l2) tr
        = (tr ++ (Unschedule <$> l1) ++ [Unschedule x], inl e))
  ∧ (∀ obj e tr,
      raises env tr (Unschedule obj) = Some e →
      delete_model env request obj tr = (tr ++ [Unschedule obj], inl e)).
Proof.
  split.
  - intros l1 x l2 e tr Hret Hx. unfold delete_queryset. rewrite bind_run.
    by rewrite (for_calls_stop env (λ _ job, unschedule env job) Unschedule
                  (λ _ _, tt) (call_only env Unschedule) l1 x l2 e).
  - intros obj e tr Hx. unfold delete_model, unschedule.
    by rewrite bind_run, (call_raises env _ e).
Qed.

Lemma delete_aborts_when_unschedule_raises_witness :
  delete_queryset hourly_stuck (mkRequest ∅) [nightly; hourly; weekly] []
    = ([Unschedule nightly; Unschedule hourly],
       inl (mkExn ["ConnectionError"; "RedisError"; "Exception";
                   "BaseException"; "object"] "Connection reset by peer")).
Proof.
  apply (proj1 (delete_aborts_when_unschedule_raises hourly_stuck (mkRequest ∅))
           [nightly] hourly [weekly]).
  - intros o Ho tr. apply list_elem_of_singleton in Ho as ->. reflexivity.
  - reflexivity.
Defined.

(** ** The pages of the execution history *)

Section Pages.

Variable int : string → option Z.

(** The number of pages is the least that holds every item. *)
Lemma num_pages_bounds l pp np :
  0 < pp → num_pages (mkPaginator l pp) = inr np →
  1 ≤ np ∧ (np - 1) * pp < Z.max 1 (Z.of_nat (length l))
  ∧ Z.of_nat (length l) ≤ np * pp.
Proof.
  intros Hpp. unfold num_pages, count. simpl.
  rewrite bool_decide_false by lia. intros [= <-].
  set (hits := Z.max 1 (Z.of_nat (length l) - 0)).
  pose proof (Z.div_mod (- hits) pp ltac:(lia)).
  pose proof (Z.mod_pos_bound (- hits) pp Hpp).
  assert (1 ≤ hits) by lia.
  assert (Z.div (- hits) pp < 0) by nia.
  replace (Z.max 1 (Z.of_nat (length l))) with hits by lia.
  repeat split; [lia|nia|nia].
Qed.

(** Page [n] holds the items from index [(n - 1) * per_page] on, at most
    [per_page] of them. *)
Lemma page_contents l pp np n :
  0 < pp → num_pages (mkPaginator l pp) = inr np → 1 ≤ n ≤ np →
  page int (mkPaginator l pp) (ArgInt n)
    = inr (mkPage (take (Z.to_nat pp) (drop (Z.to_nat ((n - 1) * pp)) l)) n).
Proof.
  intros Hpp Hnp Hn.
  destruct (num_pages_bounds l pp np Hpp Hnp) as (_ & Hlast & _).
  unfold page, validate_number. rewrite Hnp.
  rewrite (bool_decide_false (n < 1)), (bool_decide_false (n > np)) by lia.
  f_equal. f_equal. unfold slice, count. simpl.
  set (len := Z.of_nat (length l)) in *.
  set (bottom := (n - 1) * pp).
  assert (0 ≤ bottom ≤ len) as Hbottom by (subst bottom; nia).
  rewrite (bool_decide_false (bottom < 0)) by lia.
  replace (Z.min bottom len) with bottom by lia.
  destruct (bool_decide_reflect (bottom + pp + 0 >= len)) as [Htop|Htop].
  - rewrite bool_decide_false by lia. replace (Z.min len len) with len by lia.
    rewrite !take_ge; [done|rewrite length_drop; lia..].
  - rewrite bool_decide_false by lia.
    replace (Z.min (bottom + pp) len) with (bottom + pp) by lia.
    f_equal. lia.
Qed.

(** Which page [get_page] settles on, for a positive page size. *)
Lemma get_page_number l pp np arg :
  0 < pp → num_pages (mkPaginator l pp) = inr np →
  let n := match match arg with ArgInt n => Some n | ArgStr s => int s end with
           | None => 1
           | Some n => if bool_decide (1 ≤ n ≤ np) then n else np
           end in
  1 ≤ n ≤ np ∧ get_page int (mkPaginator l pp) arg = page int (mkPaginator l pp) (ArgInt n).
Proof.
  intros Hpp Hnp. destruct (num_pages_bounds l pp np Hpp Hnp) as (Hone & _).
  unfold get_page, validate_number. rewrite Hnp.
  destruct (match arg with ArgInt n => Some n | ArgStr s => int s end) as [n|];
    simpl; [|split; [lia|done]].
  destruct (bool_decide_reflect (n < 1)) as [Hlow|Hlow].
  { rewrite (bool_decide_false (1 ≤ n ≤ np)) by lia. simpl. split; [lia|done]. }
  destruct (bool_decide_reflect (n > np)) as [Hhigh|Hhigh].
  { rewrite (bool_decide_false (1 ≤ n ≤ np)) by lia. simpl. split; [lia|done]. }
  rewrite (bool_decide_true (1 ≤ n ≤ np)) by lia. split; [lia|done].
Qed.

End Pages.

(** ** More on the detail view *)

Section DetailViewRuns.

Variable ConnectionErrorTypes : list string.
Variable EXECUTIONS_IN_PAGE : Z.
Variable int : string → option Z.
Variable env : Env.
Variable request : HttpRequest.
Variables (object_id : Z) (form_url : string).
Variable extra_context : option (gmap string CtxValue).

(** The run of the view when the object exists and every call returns: the
    page it settles on, and the context it hands over. *)
Lemma change_view_renders tr obj :
  let fetch := GetJobExecutionsForTask (queue obj) obj in
  let executions :=
    job_executions env (tr ++ [GetObject object_id]) (queue obj) obj in
  let paginator := mkPaginator executions EXECUTIONS_IN_PAGE in
  returns env (GetObject object_id) →
  get_object_result env tr object_id = Some obj →
  returns env fetch →
  (∀ extra, returns env (SuperChangeView object_id form_url extra)) →
  0 < EXECUTIONS_IN_PAGE →
  ∃ np n,
    num_pages paginator = inr np
    ∧ 1 ≤ n ≤ np
    ∧ n = match GET request !! "p" with
          | None => 1
          | Some s => match int s with
                      | None => 1
                      | Some n => if bool_decide (1 ≤ n ≤ np) then n else np
                      end
          end
    ∧ let page_obj :=
        mkPage (take (Z.to_nat EXECUTIONS_IN_PAGE)
                  (drop (Z.to_nat ((n - 1) * EXECUTIONS_IN_PAGE)) executions)) n in
      let extra :=
        <["page_var" := VStr "p"]>
        (<["page_range" := VGenerator (get_elided_page_range int paginator n)]>
        (<["executions" := VPage page_obj]>
        (<["pagination_required" :=
             VBool (bool_decide (count paginator > EXECUTIONS_IN_PAGE))]>
           (default ∅ extra_context)))) in
      change_view ConnectionErrorTypes EXECUTIONS_IN_PAGE int env
          request object_id form_url extra_context tr
        = (tr ++ [GetObject object_id; fetch;
                  SuperChangeView object_id form_url extra], inr extra).
Proof.
  intros fetch executions paginator Hget Hobj Hfetch Hsuper Hpp.
  destruct (num_pages_positive paginator Hpp) as (np & Hnp & _).
  pose proof (get_page_number int executions EXECUTIONS_IN_PAGE np
                (default (ArgInt 1) (ArgStr <$> GET request !! "p")) Hpp Hnp)
    as [Hn Hpage].
  set (n := match match default (ArgInt 1) (ArgStr <$> GET request !! "p") with
                  | ArgInt n => Some n
                  | ArgStr s => int s
                  end with
            | None => 1
            | Some n => if bool_decide (1 ≤ n ≤ np) then n else np
            end) in *.
  rewrite (page_contents int executions EXECUTIONS_IN_PAGE np n Hpp Hnp Hn)
    in Hpage.
  exists np, n. split; [done|split; [done|split]].
  - subst n. destruct (GET request !! "p") as [s|]; simpl; [done|].
    by rewrite bool_decide_true by lia.
  - unfold change_view, get_object, get_job_executions_for_task, try_except.
    rewrite bind_run, ask_returns by apply Hget. rewrite Hobj.
    rewrite bind_run, ask_returns by apply Hfetch.
    unfold lift, get_paginator. fold executions.
    rewrite Hpage.
    rewrite bind_run. cbv beta iota.
    rewrite bind_run, call_returns by apply Hsuper.
    unfold mret, M_ret. by rewrite <-!app_assoc.
Qed.

(** X7: when the object exists and the calls return (positive page size),
    the page of executions in the context is a run of consecutive fetched
    executions starting at index (number - 1) * page size; it holds at most a
    page size of them, exactly that many unless it is the last page, and at
    least one whenever any execution was fetched. *)
Theorem history_page_is_a_window tr obj :
  let fetch := GetJobExecutionsForTask (queue obj) obj in
  let executions :=
    job_executions env (tr ++ [GetObject object_id]) (queue obj) obj in
  returns env (GetObject object_id) →
  get_object_result env tr object_id = Some obj →
  returns env fetch →
  (∀ extra, returns env (SuperChangeView object_id form_url extra)) →
  0 < EXECUTIONS_IN_PAGE →
  ∃ extra page_obj before after,
    (change_view ConnectionErrorTypes EXECUTIONS_IN_PAGE int env
       request object_id form_url extra_context tr).2 = inr extra
    ∧ extra !! "executions" = Some (VPage page_obj)
    ∧ executions = before ++ object_list page_obj ++ after
    ∧ Z.of_nat (length before) = (number page_obj - 1) * EXECUTIONS_IN_PAGE
    ∧ Z.of_nat (length (object_list page_obj)) ≤ EXECUTIONS_IN_PAGE
    ∧ (after ≠ [] →
       Z.of_nat (length (object_list page_obj)) = EXECUTIONS_IN_PAGE)
    ∧ (executions ≠ [] → object_list page_obj ≠ []).
Proof.
  intros fetch executions Hget Hobj Hfetch Hsuper Hpp.
  destruct (change_view_renders tr obj Hget Hobj Hfetch Hsuper Hpp)
    as (np & n & Hnp & Hn & _ & Hrun).
  fold executions in Hnp, Hrun.
  destruct (num_pages_bounds executions EXECUTIONS_IN_PAGE np Hpp Hnp)
    as (_ & Hlast & _).
  set (bottom := Z.to_nat ((n - 1) * EXECUTIONS_IN_PAGE)) in *.
  set (size := Z.to_nat EXECUTIONS_IN_PAGE) in *.
  assert (Z.of_nat bottom = (n - 1) * EXECUTIONS_IN_PAGE) as Hbottom
    by (subst bottom; nia).
  assert (Z.of_nat bottom < Z.max 1 (Z.of_nat (length executions))) as Hin
    by nia.
  eexists _, _, (take bottom executions), (drop size (drop bottom executions)).
  split; [by rewrite Hrun|]. split; [by simplify_map_eq|]. simpl.
  split; [by rewrite (take_drop size), (take_drop bottom)|].
  split; [rewrite length_take; lia|].
  split; [rewrite length_take; lia|].
  split.
  - intros Hafter. rewrite length_take, length_drop.
    assert (length (drop size (drop bottom executions)) ≠ 0)%nat as Hlen
      by (by destruct (drop size (drop bottom executions))).
    rewrite !length_drop in Hlen. lia.
  - intros Hsome Hnone.
    assert (length executions ≠ 0)%nat by (by destruct executions).
    apply (f_equal length) in Hnone. rewrite length_take, length_drop in Hnone.
    simpl in Hnone. lia.
Qed.

(** X8: the [p] query parameter picks the page: absent, or not an integer,
    gives page 1; an integer from 1 to the number of pages gives that page;
    any other integer gives the last page.  The number of pages is the least
    that holds every execution, and 1 for an empty history. *)
Theorem page_parameter_selects_the_page tr obj :
  let fetch := GetJobExecutionsForTask (queue obj) obj in
  let executions :=
    job_executions env (tr ++ [GetObject object_id]) (queue obj) obj in
  returns env (GetObject object_id) →
  get_object_result env tr object_id = Some obj →
  returns env fetch →
  (∀ extra, returns env (SuperChangeView object_id form_url extra)) →
  0 < EXECUTIONS_IN_PAGE →
  ∃ extra page_obj np,
    (change_view ConnectionErrorTypes EXECUTIONS_IN_PAGE int env
       request object_id form_url extra_context tr).2 = inr extra
    ∧ extra !! "executions" = Some (VPage page_obj)
    ∧ 1 ≤ np
    ∧ (np - 1) * EXECUTIONS_IN_PAGE < Z.max 1 (Z.of_nat (length executions))
    ∧ Z.of_nat (length executions) ≤ np * EXECUTIONS_IN_PAGE
    ∧ number page_obj
      = match GET request !! "p" with
        | None => 1
        | Some s => match int s with
                    | None => 1
                    | Some n => if bool_decide (1 ≤ n ≤ np) then n else np
                    end
        end.
Proof.
  intros fetch executions Hget Hobj Hfetch Hsuper Hpp.
  destruct (change_view_renders tr obj Hget Hobj Hfetch Hsuper Hpp)
    as (np & n & Hnp & Hn & Hchoice & Hrun).
  fold executions in Hnp, Hrun.
  destruct (num_pages_bounds executions EXECUTIONS_IN_PAGE np Hpp Hnp)
    as (Hone & Hlast & Hall).
  eexists _, _, np.
  split; [by rewrite Hrun|]. split; [by simplify_map_eq|]. by simpl.
Qed.

(** X9: the superclass view is called with the same object id and form URL
    and with the caller's extra context in which the four keys are set anew,
    whatever the caller had put under them: [pagination_required] to whether
    the executions outnumber the page size, [executions] to the page
    [get_page] gives for the [p] parameter, [page_range] to the elided range
    around that page's number and [page_var] to "p"; every other key is left
    as the caller gave it. *)
Theorem caller_context_passes_through tr obj :
  let fetch := GetJobExecutionsForTask (queue obj) obj in
  let executions :=
    job_executions env (tr ++ [GetObject object_id]) (queue obj) obj in
  let paginator := mkPaginator executions EXECUTIONS_IN_PAGE in
  returns env (GetObject object_id) →
  get_object_result env tr object_id = Some obj →
  returns env fetch →
  (∀ extra, returns env (SuperChangeView object_id form_url extra)) →
  0 < EXECUTIONS_IN_PAGE →
  ∃ extra page_obj,
    change_view ConnectionErrorTypes EXECUTIONS_IN_PAGE int env
        request object_id form_url extra_context tr
      = (tr ++ [GetObject object_id; fetch;
                SuperChangeView object_id form_url extra], inr extra)
    ∧ get_page int paginator (default (ArgInt 1) (ArgStr <$> GET request !! "p"))
      = inr page_obj
    ∧ extra !! "pagination_required"
      = Some (VBool (bool_decide
                       (Z.of_nat (length executions) > EXECUTIONS_IN_PAGE)))
    ∧ extra !! "executions" = Some (VPage page_obj)
    ∧ extra !! "page_range"
      = Some (VGenerator (get_elided_page_range int paginator (number page_obj)))
    ∧ extra !! "page_var" = Some (VStr "p")
    ∧ (∀ key, key ∉ ["pagination_required"; "executions"; "page_range";
                     "page_var"] →
              extra !! key = default ∅ extra_context !! key).
Proof.
  intros fetch executions paginator Hget Hobj Hfetch Hsuper Hpp.
  destruct (get_page_total int paginator
              (default (ArgInt 1) (ArgStr <$> GET request !! "p")) Hpp)
    as [page_obj Hpage].
  unfold change_view, get_object, get_job_executions_for_task, try_except.
  rewrite bind_run, ask_returns by apply Hget. rewrite Hobj.
  rewrite bind_run, ask_returns by apply Hfetch.
  unfold lift, get_paginator. fold executions. fold paginator. rewrite Hpage.
  rewrite bind_run. cbv beta iota.
  rewrite bind_run, call_returns by apply Hsuper.
  eexists _, page_obj. split; [|split; [done|]].
  { unfold mret, M_ret. by rewrite <-!app_assoc. }
  split; [by simplify_map_eq|]. split; [by simplify_map_eq|].
  split; [by simplify_map_eq|]. split; [by simplify_map_eq|].
  intros key Hkey. rewrite !elem_of_cons, elem_of_nil in Hkey.
  rewrite !lookup_insert_ne; [done|naive_solver..].
Qed.

(** X10: an exception of the fetch that is of none of the connection error
    classes leaves the view as it is: nothing is logged and the superclass
    view is not called. *)
Theorem change_view_propagates_other_errors tr obj e :
  let fetch := GetJobExecutionsForTask (queue obj) obj in
  returns env (GetObject object_id) →
  get_object_result env tr object_id = Some obj →
  raises env (tr ++ [GetObject object_id]) fetch = Some e →
  isinstance e ConnectionErrorTypes = false →
  change_view ConnectionErrorTypes EXECUTIONS_IN_PAGE int env
      request object_id form_url extra_context tr
    = (tr ++ [GetObject object_id; fetch], inl e).
Proof.
  intros fetch Hget Hobj Hfetch Hother.
  unfold change_view, get_object, get_job_executions_for_task, try_except.
  rewrite bind_run, ask_returns by apply Hget. rewrite Hobj.
  rewrite bind_run, (ask_raises env _ _ e) by apply Hfetch.
  by rewrite Hother, <-app_assoc.
Qed.

(** X11: when [get_object] finds no object, reading [obj.queue] raises
    [AttributeError]; unless the connection error classes cover it, the view
    raises it without asking for executions and without calling the
    superclass view. *)
Theorem change_view_of_missing_object_raises tr :
  let error := AttributeError "'NoneType' object has no attribute 'queue'" in
  returns env (GetObject object_id) →
  get_object_result env tr object_id = None →
  isinstance error ConnectionErrorTypes = false →
  change_view ConnectionErrorTypes EXECUTIONS_IN_PAGE int env
      request object_id form_url extra_context tr
    = (tr ++ [GetObject object_id], inl error).
Proof.
  intros error Hget Hobj Hother.
  unfold change_view, get_object, try_except.
  rewrite bind_run, ask_returns by apply Hget. rewrite Hobj.
  rewrite bind_run. unfold lift. fold error. by rewrite Hother.
Qed.

End DetailViewRuns.

Lemma history_page_is_a_window_witness :
  ∃ extra page_obj before after,
    (change_view ["ConnectionError"] 2 (λ _, Some 2) three_runs
       (mkRequest {["p" := "2"]}) 1 "" None []).2 = inr extra
    ∧ extra !! "executions" = Some (VPage page_obj)
    ∧ [mkExecution "run-1"; mkExecution "run-2"; mkExecution "run-3"]
      = before ++ object_list page_obj ++ after
    ∧ Z.of_nat (length before) = (number page_obj - 1) * 2
    ∧ Z.of_nat (length (object_list page_obj)) ≤ 2
    ∧ (after ≠ [] → Z.of_nat (length (object_list page_obj)) = 2)
    ∧ ([mkExecution "run-1"; mkExecution "run-2"; mkExecution "run-3"] ≠ [] →
       object_list page_obj ≠ []).
Proof.
  apply (history_page_is_a_window ["ConnectionError"] 2 (λ _, Some 2) three_runs
           (mkRequest {["p" := "2"]}) 1 "" None [] nightly);
    try reflexivity; intros; intro; reflexivity.
Defined.

Lemma page_parameter_selects_the_page_witness :
  ∃ extra page_obj np,
    (change_view ["ConnectionError"] 2 (λ _, Some 9) three_runs
       (mkRequest {["p" := "9"]}) 1 "" None []).2 = inr extra
    ∧ extra !! "executions" = Some (VPage page_obj)
    ∧ 1 ≤ np
    ∧ (np - 1) * 2 < Z.max 1 3
    ∧ 3 ≤ np * 2
    ∧ number page_obj
      = match GET (mkRequest {["p" := "9"]}) !! "p" with
        | None => 1
        | Some s => match (λ _ : string, Some 9) s with
                    | None => 1
                    | Some n => if bool_decide (1 ≤ n ≤ np) then n else np
                    end
        end.
Proof.
  apply (page_parameter_selects_the_page ["ConnectionError"] 2 (λ _, Some 9)
           three_runs (mkRequest {["p" := "9"]}) 1 "" None [] nightly);
    try reflexivity; intros; intro; reflexivity.
Defined.

Lemma caller_context_passes_through_witness :
  ∃ extra page_obj,
    change_view ["ConnectionError"] 2 (λ _, None) three_runs (mkRequest ∅) 1 ""
        (Some (<["executions" := VOther "stale"]>
               (<["page_var" := VStr "q"]> {["title" := VStr "Nightly"]}))) []
      = ([GetObject 1; GetJobExecutionsForTask "default" nightly;
          SuperChangeView 1 "" extra], inr extra)
    ∧ get_page (λ _, None)
        (mkPaginator [mkExecution "run-1"; mkExecution "run-2";
                      mkExecution "run-3"] 2)
        (ArgInt 1) = inr page_obj
    ∧ extra !! "pagination_required" = Some (VBool true)
    ∧ extra !! "executions" = Some (VPage page_obj)
    ∧ extra !! "page_range"
      = Some (VGenerator
                (get_elided_page_range (λ _, None)
                   (mkPaginator [mkExecution "run-1"; mkExecution "run-2";
                                 mkExecution "run-3"] 2)
                   (number page_obj)))
    ∧ extra !! "page_var" = Some (VStr "p")
    ∧ (∀ key, key ∉ ["pagination_required"; "executions"; "page_range";
                     "page_var"] →
              extra !! key
                = (<["executions" := VOther "stale"]>
                   (<["page_var" := VStr "q"]> {["title" := VStr "Nightly"]})
                   : gmap string CtxValue) !! key).
Proof.
  refine (caller_context_passes_through ["ConnectionError"] 2 (λ _, None)
            three_runs (mkRequest ∅) 1 ""
            (Some (<["executions" := VOther "stale"]>
                   (<["page_var" := VStr "q"]> {["title" := VStr "Nightly"]})))
            [] nightly _ _ _ _ _);
    try reflexivity; intros; intro; reflexivity.
Defined.

Lemma change_view_propagates_other_errors_witness :
  change_view ["TimeoutError"] 20 (λ _, None) broker_down (mkRequest ∅) 1 ""
      None []
    = ([GetObject 1; GetJobExecutionsForTask "default" nightly],
       inl (mkExn ["ConnectionError"; "RedisError"; "Exception";
                   "BaseException"; "object"]
                  "Error 111 connecting to localhost:6379.")).
Proof.
  apply (change_view_propagates_other_errors ["TimeoutError"] 20 (λ _, None)
           broker_down (mkRequest ∅) 1 "" None [] nightly);
    try reflexivity; intros; intro; reflexivity.
Defined.

Lemma change_view_of_missing_object_raises_witness :
  change_view ["ConnectionError"; "TimeoutError"] 20 (λ _, None) quiet
      (mkRequest ∅) 404 "" None []
    = ([GetObject 404],
       inl (AttributeError "'NoneType' object has no attribute 'queue'")).
Proof.
  apply (change_view_of_missing_object_raises ["ConnectionError"; "TimeoutError"]
           20 (λ _, None) quiet (mkRequest ∅) 404 "" None []);
    try reflexivity; intros; intro; reflexivity.
Defined.

(** ** A page size of zero *)

Lemma get_page_zero_size int l arg :
  get_page int (mkPaginator l 0) arg = inl (ZeroDivisionError "division by zero").
Proof.
  unfold get_page, page, validate_number, num_pages. simpl.
  destruct (match arg with ArgInt n => Some n | ArgStr s => int s end) as [n|];
    [|done].
  by destruct (bool_decide (n < 1)).
Qed.

(** X12: with [EXECUTIONS_IN_PAGE] set to zero the view raises
    [ZeroDivisionError] once the executions are fetched, whatever they are
    and whatever page is asked for, and never reaches the superclass view. *)
Theorem change_view_with_zero_page_size ConnectionErrorTypes int env request
    object_id form_url extra_context tr obj :
  let fetch := GetJobExecutionsForTask (queue obj) obj in
  returns env (GetObject object_id) →
  get_object_result env tr object_id = Some obj →
  returns env fetch →
  change_view ConnectionErrorTypes 0 int env
      request object_id form_url extra_context tr
    = (tr ++ [GetObject object_id; fetch],
       inl (ZeroDivisionError "division by zero")).
Proof.
  intros fetch Hget Hobj Hfetch.
  unfold change_view, get_object, get_job_executions_for_task, try_except.
  rewrite bind_run, ask_returns by apply Hget. rewrite Hobj.
  rewrite bind_run, ask_returns by apply Hfetch.
  unfold lift, get_paginator. rewrite get_page_zero_size.
  rewrite bind_run. cbv beta iota. by rewrite <-app_assoc.
Qed.

Lemma change_view_with_zero_page_size_witness :
  change_view ["ConnectionError"] 0 (λ _, None) three_runs (mkRequest ∅) 1 ""
      None []
    = ([GetObject 1; GetJobExecutionsForTask "default" nightly],
       inl (ZeroDivisionError "division by zero")).
Proof.
  apply (change_view_with_zero_page_size ["ConnectionError"] (λ _, None)
           three_runs (mkRequest ∅) 1 "" None [] nightly);
    try reflexivity; intros; intro; reflexivity.
Defined.

(** ** The message bit *)

Lemma string_length_app (s1 s2 : string) :
  String.length (s1 +:+ s2) = (String.length s1 + String.length s2)%nat.
Proof. induction s1 as [|a s1 IH]; simpl; [done|]. by rewrite IH. Qed.

Lemma string_app_inj_l (s1 s2 s : string) : s1 +:+ s = s2 +:+ s → s1 = s2.
Proof.
  revert s2. induction s1 as [|a s1 IH]; intros [|b s2] Heq; simpl in *.
  - done.
  - apply (f_equal String.length) in Heq.
    rewrite ?string_length_app in Heq. simpl in Heq.
    rewrite ?string_length_app in Heq. lia.
  - apply (f_equal String.length) in Heq.
    rewrite ?string_length_app in Heq. simpl in Heq.
    rewrite ?string_length_app in Heq. lia.
  - injection Heq as -> Heq. f_equal. by apply IH.
Qed.

(** X13: different counts give different message bits, so the count can be
    read back from the message; only the count 1 gets the singular. *)
Theorem get_message_bit_tells_the_count (n m : Z) :
  (get_message_bit n = get_message_bit m → n = m)
  ∧ (get_message_bit n = "1 task was" ↔ n = 1).
Proof.
  assert (∀ k : Z, pretty k +:+ " tasks were" ≠ "1 task was") as Hplural.
  { intros k Heq. apply (f_equal String.length) in Heq.
    rewrite string_length_app in Heq. simpl in Heq. lia. }
  unfold get_message_bit. split; [|split].
  - repeat case_bool_decide; intros Heq; [congruence| | |].
    + by destruct (Hplural m).
    + by destruct (Hplural n).
    + apply string_app_inj_l in Heq. by apply (inj pretty).
  - case_bool_decide; [done|]. intros Heq. by destruct (Hplural n).
  - intros ->. by rewrite bool_decide_true.
Qed.

(** * Which calls a handler can make *)

Section OnlyCalls.

Variable env : Env.
Variable P : Call → Prop.

Lemma only_calls_ret {A} (a : A) : only_calls P (mret a).
Proof. intros tr. exists []. split; [by rewrite app_nil_r|]. by intros c ?%elem_of_nil. Qed.

Lemma only_calls_lift {A} (r : Exn + A) : only_calls P (lift r).
Proof. intros tr. exists []. split; [by rewrite app_nil_r|]. by intros c ?%elem_of_nil. Qed.

Lemma only_calls_ask {A} c (answer : list Call → A) :
  P c → only_calls P (ask env c answer).
Proof.
  intros Hc tr. exists [c]. split; [done|].
  by intros c' ->%list_elem_of_singleton.
Qed.

Lemma only_calls_bind {A B} (m : M A) (k : A → M B) :
  only_calls P m → (∀ a, only_calls P (k a)) → only_calls P (m ≫= k).
Proof.
  intros Hm Hk tr. rewrite bind_run.
  destruct (Hm tr) as (calls & Htr & Hcalls).
  destruct (m tr) as [tr' [e|a]]; simpl in Htr; subst tr'.
  - by exists calls.
  - destruct (Hk a (tr ++ calls)) as (calls' & Htr' & Hcalls').
    exists (calls ++ calls'). split; [by rewrite Htr', app_assoc|].
    intros c [?|?]%elem_of_app; auto.
Qed.

Lemma only_calls_try {A} (body : M A) classes (handler : Exn → M A) :
  only_calls P body → (∀ e, only_calls P (handler e)) →
  only_calls P (try_except body classes handler).
Proof.
  intros Hbody Hhandler tr. unfold try_except.
  destruct (Hbody tr) as (calls & Htr & Hcalls).
  destruct (body tr) as [tr' [e|a]]; simpl in Htr; subst tr'; [|by exists calls].
  destruct (isinstance e classes); [|by exists calls].
  destruct (Hhandler e (tr ++ calls)) as (calls' & Htr' & Hcalls').
  exists (calls ++ calls'). split; [by rewrite Htr', app_assoc|].
  intros c [?|?]%elem_of_app; auto.
Qed.

Lemma only_calls_for {A S} (l : list A) (body : S → A → M S) s :
  (∀ s x, only_calls P (body s x)) → only_calls P (for_ l body s).
Proof.
  intros Hbody. revert s. induction l as [|x l IH]; intros s; simpl.
  - apply only_calls_ret.
  - apply only_calls_bind; [apply Hbody|apply IH].
Qed.

End OnlyCalls.

(** One step of the proof that a handler makes only calls of some kind. *)
Ltac only_calls_step :=
  first [ apply only_calls_ret
        | apply only_calls_lift
        | apply only_calls_ask; reflexivity
        | apply only_calls_for; intros
        | apply only_calls_try; [|intros]
        | apply only_calls_bind; [|intros] ].

(** C9 (amended): the add-permission check answers false for every request;
    new task records still come into being through this surface, for
    [migrate_selected] calls the migration routine, which produces a successor
    record, on every selected row; no other handler of the surface, whatever
    the collaborators answer, makes a call that produces a record. *)
Theorem add_denied_and_only_migration_produces_records env request :
  has_add_permission request = false
  ∧ (∀ (queryset : QuerySet) tr,
       (∀ o, o ∈ queryset → returns env (Migrate o)) →
       (∀ msg level, returns env (MessageUser msg level)) →
       ∃ report,
         migrate_selected env request queryset tr
           = (tr ++ (Migrate <$> queryset) ++ [report], inr tt)
         ∧ produces_record report = false
         ∧ ∀ c, c ∈ Migrate <$> queryset → produces_record c = true)
  ∧ (∀ queryset,
       only_calls (λ c, produces_record c = false)
                  (disable_selected env request queryset))
  ∧ (∀ queryset,
       only_calls (λ c, produces_record c = false)
                  (enable_selected env request queryset))
  ∧ (∀ queryset,
       only_calls (λ c, produces_record c = false)
                  (enqueue_job_now env request queryset))
  ∧ (∀ queryset,
       only_calls (λ c, produces_record c = false)
                  (delete_queryset env request queryset))
  ∧ (∀ obj,
       only_calls (λ c, produces_record c = false)
                  (delete_model env request obj))
  ∧ (∀ ConnectionErrorTypes EXECUTIONS_IN_PAGE int object_id form_url
       extra_context,
       only_calls (λ c, produces_record c = false)
                  (change_view ConnectionErrorTypes EXECUTIONS_IN_PAGE int env
                     request object_id form_url extra_context)).
Proof.
  split; [reflexivity|]. split.
  { intros queryset tr Hcalls Hreport. eexists. split; [|split].
    - apply migrate_selected_run; [done|apply Hreport].
    - reflexivity.
    - by intros c (o & -> & _)%list_elem_of_fmap. }
  repeat split.
  - intros queryset.
    unfold disable_selected, iterator, unschedule, message_user, call.
    repeat only_calls_step.
  - intros queryset.
    unfold enable_selected, iterator, save, message_user, call.
    repeat only_calls_step.
  - intros queryset. unfold enqueue_job_now, enqueue_to_run, message_user, call.
    repeat only_calls_step.
  - intros queryset. unfold delete_queryset, unschedule, call.
    repeat only_calls_step.
  - intros obj. unfold delete_model, unschedule, call.
    repeat only_calls_step.
  - intros ConnectionErrorTypes EXECUTIONS_IN_PAGE int object_id form_url
      extra_context.
    unfold change_view, get_object, get_job_executions_for_task, call.
    cbv zeta.
    apply only_calls_bind; [only_calls_step|intros obj].
    apply only_calls_bind.
    { apply only_calls_try; [destruct obj|intros e]; repeat only_calls_step. }
    intros execution_list. repeat only_calls_step.
Qed.

Lemma add_denied_and_only_migration_produces_records_witness :
  ∃ report,
    migrate_selected quiet (mkRequest ∅) [nightly; weekly] []
      = ([] ++ (Migrate <$> [nightly; weekly]) ++ [report], inr tt)
    ∧ produces_record report = false
    ∧ ∀ c, c ∈ Migrate <$> [nightly; weekly] → produces_record c = true.
Proof.
  apply (proj1 (proj2 (add_denied_and_only_migration_produces_records
                         quiet (mkRequest ∅))) [nightly; weekly] []);
    intros; intro; reflexivity.
Defined.

(** C9 as stated fails: with the add permission denied, [migrate_selected] on
    a selection of one row still makes the call that produces a new task
    record. *)
Lemma migrate_selected_produces_a_record :
  has_add_permission (mkRequest ∅) = false
  ∧ migrate_selected quiet (mkRequest ∅) [nightly] []
    = ([Migrate nightly;
        MessageUser "1 task was successfully migrated to new model." INFO],
       inr tt)
  ∧ produces_record (Migrate nightly) = true.
Proof. repeat split. Qed.
